(** * AstroSynth data scripts: the archive fetcher and the SQLite loader

    A shallow embedding of [scripts/test.py] (the fetcher and its
    pagination helper) and of [scripts/migrate_to_sqlite.py] (the loader),
    followed by the properties of the two pipelines. *)

From stdpp Require Import gmap strings list.
From Stdlib Require Import ZArith Lia.
From Stdlib Require DecimalString.

#[local] Set Warnings "-register-all".
#[local] Open Scope Z_scope.

(** ** Python built-ins shared by the two scripts *)

Module Py.

(** Number of elements of [range(start, stop, step)] for a non-zero step. *)
Definition range_len (start stop step : Z) : Z :=
    if 0 <? step
    then (if start <? stop then (stop - start - 1) / step + 1 else 0)
    else (if stop <? start then (start - stop - 1) / (- step) + 1 else 0).

(** [range(start, stop, step)]; [None] stands for the [ValueError] that a
      zero step raises. *)
Definition range (start stop step : Z) : option (list Z) :=
    if step =? 0 then None
    else Some ((λ k : nat, start + Z.of_nat k * step)
                 <$> seq 0 (Z.to_nat (range_len start stop step))).

(** An index of a slice, brought into [0 .. len]: a negative index counts
      from the end. *)
Definition clamp (len k : Z) : Z :=
    if k <? 0 then Z.max (k + len) 0 else Z.min k len.

(** [l[i:j]]: never raises, an empty or reversed window gives [[]]. *)
Definition slice {A : Type} (l : list A) (i j : Z) : list A :=
    let n := Z.of_nat (length l) in
    let lo := clamp n i in
    let hi := clamp n j in
    take (Z.to_nat (hi - lo)) (drop (Z.to_nat lo) l).

(** [str(n)] of an integer, as an f-string renders it. *)
Definition str_int (n : Z) : string :=
    DecimalString.NilZero.string_of_int (Z.to_int n).

End Py.

(** ** [scripts/test.py]: the pagination helper *)

(** [paginate(data, batch_size)]: the chunks the generator yields, in
    order; [None] when [range] refuses the step. *)
Definition paginate {A : Type} (data : list A) (batch_size : Z)
  : option (list (list A)) :=
  (λ starts : list Z, (λ i, Py.slice data i (i + batch_size)) <$> starts)
    <$> Py.range 0 (Z.of_nat (length data)) batch_size.

(** The default of the keyword argument. *)
Definition paginate_default {A : Type} (data : list A) := paginate data 100.


(** ** Values and exceptions of the two scripts *)

(** A JSON value as [json.load] and [resp.json()] return it.  A float is
    kept as the 64 bits of its IEEE-754 double; [None] is [JNull]. *)
Inductive json : Type :=
| JNull
| JBool (b : bool)
| JInt (n : Z)
| JFloat (bits : Z)
| JStr (s : string)
| JArr (items : list json)
| JObj (fields : gmap string json).

(** The constraint an insert can violate. *)
Inductive violation : Type := NotNull | Unique.

(** The exceptions the scripts meet.  [InterfaceError] is the sqlite3
    module's complaint about a parameter of an unsupported type. *)
Inductive exn : Type :=
| AttributeError
| TypeError
| ValueError
| JSONDecodeError
| TransportError
| RuntimeError (msg : string)
| OverflowError
| InterfaceError (param : nat)
| ProgrammingError
| OperationalError
| IntegrityError (v : violation) (column : string).

(** [isinstance(e, sqlite3.IntegrityError)] *)
Definition is_integrity (e : exn) : bool :=
  match e with IntegrityError _ _ => true | _ => false end.

(** A computation that returns or raises. *)
Inductive result (A : Type) : Type :=
| Ok (a : A)
| Raise (e : exn).
Arguments Ok {A} a.
Arguments Raise {A} e.

#[global] Instance result_ret : MRet result := λ A, Ok.
#[global] Instance result_bind : MBind result :=
  λ A B f r, match r with Ok a => f a | Raise e => Raise e end.

(** [len(v)] *)
Definition py_len (v : json) : result nat :=
  match v with
  | JArr items => Ok (length items)
  | JObj fields => Ok (size fields)
  | JStr s => Ok (String.length s)
  | _ => Raise TypeError
  end.

(** [planet.get(key, dflt)]: only a dict has the method. *)
Definition py_get (planet : json) (key : string) (dflt : json) : result json :=
  match planet with
  | JObj fields => Ok (default dflt (fields !! key))
  | _ => Raise AttributeError
  end.

(** ** [scripts/test.py]: the fetcher *)

Record request : Type := Request {
  url : string;
  params : list (string * string);
  headers : list (string * string);
  timeout : Z }.

Record response : Type := Response {
  status_code : Z;
  text : string }.

(** What the fetcher runs against: the archive behind [requests.get], and
    the JSON codec of the standard library. *)
Class Host : Type := {
  server : request → result response;
  json_loads : string → option json;
  json_dumps : json → string }.

(** The lines the fetcher prints. *)
Inductive fetch_line : Type :=
| Requesting
| Got (n : nat)
| TotalFetched (n : nat)
| DataSaved.

(** What the fetcher can change: the files of the working directory, the
    requests sent so far, the console. *)
Record world : Type := World {
  files : gmap string string;
  sent : list request;
  console : list fetch_line }.

Definition say (l : fetch_line) (w : world) : world :=
  World (files w) (sent w) (console w ++ [l]).

Definition send (r : request) (w : world) : world :=
  World (files w) (sent w ++ [r]) (console w).

Definition write_file (path content : string) (w : world) : world :=
  World (<[path := content]> (files w)) (sent w) (console w).

(** The query, after [.replace] and [.strip()]. *)
Definition query : string :=
  "SELECT       pl_name,       hostname,       sy_dist,       pl_orbper,       pl_rade,       pl_bmasse,       pl_eqt,       pl_orbsmax,       pl_orbeccen,       st_spectype,       st_teff,       st_rad,       st_mass,       disc_year,       discoverymethod,       ra,       dec,       default_flag     FROM ps     WHERE default_flag = 1     ORDER BY disc_year DESC".

Definition base_url : string :=
  "https://exoplanetarchive.ipac.caltech.edu/TAP/sync".

Definition fetch_request : request :=
  Request base_url
    [("query", query); ("format", "json")]
    [("Accept", "application/json");
     ("User-Agent", "AstroSynth/1.0.0 (NASA Space Apps Challenge)")]
    120.

(** [resp.text[:200]] *)
Definition excerpt (body : string) : string :=
  String.string_of_list_ascii (Py.slice (String.list_ascii_of_string body) 0 200).

(** [f"HTTP {resp.status_code}: {resp.text[:200]}"] *)
Definition http_error (resp : response) : string :=
  "HTTP " +:+ Py.str_int (status_code resp) +:+ ": " +:+ excerpt (text resp).

Definition fetch_all_exoplanets `{Host} (w : world) : world * result json :=
  let w := say Requesting w in
  let w := send fetch_request w in
  match server fetch_request with
  | Raise e => (w, Raise e)
  | Ok resp =>
      if negb (status_code resp =? 200)
      then (w, Raise (RuntimeError (http_error resp)))
      else
        match json_loads (text resp) with
        | None => (w, Raise JSONDecodeError)
        | Some data =>
            match py_len data with
            | Raise e => (w, Raise e)
            | Ok n => (say (Got n) w, Ok data)
            end
        end
  end.

(** The body of [if __name__ == "__main__"]. *)
Definition fetcher_main `{Host} (w : world) : world * result unit :=
  match fetch_all_exoplanets w with
  | (w, Raise e) => (w, Raise e)
  | (w, Ok planets) =>
      match py_len planets with
      | Raise e => (w, Raise e)
      | Ok n =>
          let w := say (TotalFetched n) w in
          let w := write_file "Exoplanate.json" (json_dumps planets) w in
          (say DataSaved w, Ok ())
      end
  end.

(** ** The SQLite store behind [sqlite3]

    The engine is a collaborator of the loader, not part of the
    repository; what follows is the part of its behaviour the loader's
    statements exercise. *)

(** A stored value.  A real is the 64 bits of its double. *)
Inductive sqlval : Type :=
| SNull
| SInt (n : Z)
| SReal (bits : Z)
| SText (s : string).

Definition is_null (v : sqlval) : bool :=
  match v with SNull => true | _ => false end.

Definition double_exponent (bits : Z) : Z := Z.land (Z.shiftr bits 52) 2047.
Definition double_mantissa (bits : Z) : Z := Z.land bits (2 ^ 52 - 1).

Definition double_is_nan (bits : Z) : bool :=
  (double_exponent bits =? 2047) && negb (double_mantissa bits =? 0).

(** The value of a double times [2 ^ 1074], which is an integer for every
    finite double; an infinity lies beyond all of them. *)
Definition double_scaled (bits : Z) : Z :=
  let e := double_exponent bits in
  let m := double_mantissa bits in
  let magnitude :=
    if e =? 0 then m
    else if e =? 2047 then Z.shiftl 1 2100
    else Z.shiftl (2 ^ 52 + m) (e - 1) in
  if Z.testbit bits 63 then - magnitude else magnitude.

(** How the sqlite3 module binds one Python value to a [?] marker. *)
Definition bind_param (i : nat) (v : json) : result sqlval :=
  match v with
  | JNull => Ok SNull
  | JBool b => Ok (SInt (if b then 1 else 0))
  | JInt n =>
      if (- 2 ^ 63 <=? n) && (n <? 2 ^ 63) then Ok (SInt n)
      else Raise OverflowError
  | JFloat bits => Ok (if double_is_nan bits then SNull else SReal bits)
  | JStr s => Ok (SText s)
  | JArr _ | JObj _ => Raise (InterfaceError i)
  end.

(** The parameters are bound in order; the first failure is raised. *)
Fixpoint bind_parameters (i : nat) (args : list json) : result (list sqlval) :=
  match args with
  | [] => Ok []
  | v :: rest =>
      x ← bind_param i v;
      xs ← bind_parameters (S i) rest;
      Ok (x :: xs)
  end.

(** The order of [MIN], [MAX] and of a BINARY-collated text column:
    NULL first, then numbers by value, then text byte by byte. *)
Fixpoint text_leb (s t : string) : bool :=
  match s, t with
  | EmptyString, _ => true
  | String _ _, EmptyString => false
  | String a s', String b t' =>
      let x := Ascii.N_of_ascii a in
      let y := Ascii.N_of_ascii b in
      (x <? y)%N || ((x =? y)%N && text_leb s' t')
  end.

Definition numeric_key (v : sqlval) : Z :=
  match v with
  | SInt n => Z.shiftl n 1074
  | SReal bits => double_scaled bits
  | _ => 0
  end.

Definition sql_leb (a b : sqlval) : bool :=
  match a, b with
  | SNull, _ => true
  | _, SNull => false
  | SText s, SText t => text_leb s t
  | SText _, _ => false
  | _, SText _ => true
  | _, _ => numeric_key a <=? numeric_key b
  end.

(** Equality as a UNIQUE index sees it: NULL equals nothing. *)
Definition sql_eqb (a b : sqlval) : bool :=
  negb (is_null a) && negb (is_null b) && sql_leb a b && sql_leb b a.

Inductive affinity : Type := TEXT | REAL | INTEGER | NUMERIC.

(** The conversion a column's affinity applies to a value on its way into
    the table.  Only what every version of the engine guarantees is
    assumed of it: NULL stays NULL, nothing else becomes NULL, and an
    integer stored in an INTEGER column is stored as it is. *)
Class Engine : Type := {
  coerce : affinity → sqlval → sqlval;
  coerce_null : ∀ a v, coerce a v = SNull ↔ v = SNull;
  coerce_integer : ∀ n, coerce INTEGER (SInt n) = SInt n }.

(** An engine to compute with: an integer stored in a TEXT column becomes
    its decimal text, every other value is stored as bound. *)
Definition plain_coerce (a : affinity) (v : sqlval) : sqlval :=
  match a, v with
  | TEXT, SInt n => SText (Py.str_int n)
  | _, _ => v
  end.

#[global] Program Instance plain_engine : Engine := {| coerce := plain_coerce |}.
Next Obligation. intros [] []; simpl; split; congruence. Qed.
Next Obligation. done. Qed.

(** *** Schema *)

Inductive decltype : Type := TyInteger | TyText | TyReal | TyTimestamp.

Definition affinity_of (ty : decltype) : affinity :=
  match ty with
  | TyInteger => INTEGER
  | TyText => TEXT
  | TyReal => REAL
  | TyTimestamp => NUMERIC
  end.

Inductive colopt : Type :=
| PrimaryKeyAutoincrement
| NotNullOpt
| UniqueOpt
| DefaultCurrentTimestamp.

Record column : Type := Column {
  c_name : string;
  c_type : decltype;
  c_opts : list colopt }.

Record index : Type := Index {
  i_name : string;
  i_column : string }.

(** A table: its schema, its indexes, its rows in insertion order (a row
    holds one value per column), and the largest rowid handed out. *)
Record table : Type := Table {
  t_columns : list column;
  t_indexes : list index;
  t_rows : list (list sqlval);
  t_seq : Z }.

(** The database file is the loader's own: it holds the table [planets]
    or nothing. *)
Definition database : Type := option table.

Definition is_autoincrement (c : column) : bool :=
  existsb (λ o, match o with PrimaryKeyAutoincrement => true | _ => false end) (c_opts c).
Definition is_notnull (c : column) : bool :=
  existsb (λ o, match o with NotNullOpt => true | _ => false end) (c_opts c).
Definition is_unique (c : column) : bool :=
  existsb (λ o, match o with UniqueOpt => true | _ => false end) (c_opts c).
Definition is_default_now (c : column) : bool :=
  existsb (λ o, match o with DefaultCurrentTimestamp => true | _ => false end) (c_opts c).

(** Position of the column called [name]. *)
Fixpoint column_index (cols : list column) (name : string) : option nat :=
  match cols with
  | [] => None
  | c :: rest =>
      if String.eqb (c_name c) name then Some 0%nat
      else S <$> column_index rest name
  end.

(** The value a row holds in the column called [name]. *)
Definition field (cols : list column) (name : string) (row : list sqlval) : sqlval :=
  match column_index cols name with
  | Some i => default SNull (row !! i)
  | None => SNull
  end.

(** *** Statements *)

(** [DROP TABLE IF EXISTS planets]: the table goes, and its indexes and
    its rowid sequence with it. *)
Definition drop_table_if_exists (d : database) : result database := Ok None.

(** [CREATE TABLE planets (...)] *)
Definition create_table (cols : list column) (d : database) : result database :=
  match d with
  | Some _ => Raise OperationalError
  | None => Ok (Some (Table cols [] [] 0))
  end.

(** [CREATE INDEX name ON planets(col)] *)
Definition create_index (name col : string) (d : database) : result database :=
  match d with
  | None => Raise OperationalError
  | Some t =>
      if existsb (λ i, String.eqb (i_name i) name) (t_indexes t)
      then Raise OperationalError
      else
        match column_index (t_columns t) col with
        | None => Raise OperationalError
        | Some _ =>
            Ok (Some (Table (t_columns t) (t_indexes t ++ [Index name col])
                            (t_rows t) (t_seq t)))
        end
  end.

(** The value bound for the column called [name], if the statement names it. *)
Fixpoint bound_for (name : string) (cols : list string) (vals : list sqlval)
  : option sqlval :=
  match cols, vals with
  | c :: cols', v :: vals' =>
      if String.eqb c name then Some v else bound_for name cols' vals'
  | _, _ => None
  end.

(** What a column left out of the statement receives. *)
Definition default_value (now : string) (t : table) (c : column) : sqlval :=
  if is_autoincrement c then SInt (t_seq t + 1)
  else if is_default_now c then SText now
  else SNull.

Definition new_row `{Engine} (now : string) (t : table)
    (cols : list string) (vals : list sqlval) : list sqlval :=
  (λ c, coerce (affinity_of (c_type c))
          (match bound_for (c_name c) cols vals with
           | Some v => v
           | None => default_value now t c
           end)) <$> t_columns t.

(** The first NOT NULL column of [row] that holds NULL. *)
Fixpoint null_violation (cols : list column) (row : list sqlval) : option string :=
  match cols, row with
  | c :: cols', v :: row' =>
      if is_notnull c && is_null v then Some (c_name c)
      else null_violation cols' row'
  | _, _ => None
  end.

(** Does some row of [rows] hold in column [i] a value equal to [v]? *)
Definition taken (rows : list (list sqlval)) (i : nat) (v : sqlval) : bool :=
  existsb (λ r, sql_eqb (default SNull (r !! i)) v) rows.

(** The first UNIQUE column in which [row] repeats a stored value. *)
Fixpoint unique_violation (rows : list (list sqlval)) (i : nat)
    (cols : list column) (row : list sqlval) : option string :=
  match cols, row with
  | c :: cols', v :: row' =>
      if is_unique c then
        if taken rows i v then Some (c_name c)
        else unique_violation rows (S i) cols' row'
      else unique_violation rows (S i) cols' row'
  | _, _ => None
  end.

(** Compiling [INSERT INTO planets (cols) VALUES (?, ...)]: every column
    named must be a column of the table. *)
Definition prepare_insert (t : table) (cols : list string) : result unit :=
  if forallb (λ k, bool_decide (is_Some (column_index (t_columns t) k))) cols
  then Ok ()
  else Raise OperationalError.

(** Running the compiled statement on the bound values at time [now]. *)
Definition insert_row `{Engine} (now : string) (t : table)
    (cols : list string) (vals : list sqlval) : result table :=
  let row := new_row now t cols vals in
  match null_violation (t_columns t) row with
  | Some c => Raise (IntegrityError NotNull c)
  | None =>
      match unique_violation (t_rows t) 0 (t_columns t) row with
      | Some c => Raise (IntegrityError Unique c)
      | None => Ok (Table (t_columns t) (t_indexes t) (t_rows t ++ [row]) (t_seq t + 1))
      end
  end.

(** [SELECT COUNT( * ) FROM planets] *)
Definition select_count (d : database) : result nat :=
  match d with
  | None => Raise OperationalError
  | Some t => Ok (length (t_rows t))
  end.

(** The aggregates [MIN] and [MAX]: NULL over no value, else the first of
    the least (greatest) values met. *)
Definition agg_min (vs : list sqlval) : sqlval :=
  foldl (λ best v,
           if is_null v then best
           else if is_null best then v
           else if sql_leb best v then best else v) SNull vs.

Definition agg_max (vs : list sqlval) : sqlval :=
  foldl (λ best v,
           if is_null v then best
           else if is_null best then v
           else if sql_leb v best then best else v) SNull vs.

(** The years the WHERE clause lets through. *)
Definition non_null_years (t : table) : list sqlval :=
  List.filter (λ v, negb (is_null v)) (field (t_columns t) "disc_year" <$> t_rows t).

(** [SELECT MIN(disc_year), MAX(disc_year) FROM planets
     WHERE disc_year IS NOT NULL] *)
Definition select_min_max_disc_year (d : database) : result (sqlval * sqlval) :=
  match d with
  | None => Raise OperationalError
  | Some t => Ok (agg_min (non_null_years t), agg_max (non_null_years t))
  end.

(** *** A connection of the sqlite3 module

    [disk] is what the file holds, [work] what the connection sees: the
    file plus the inserts not yet committed.  The schema statements run
    with no transaction open, so they reach the file at once. *)
Record conn : Type := Conn {
  disk : database;
  work : database }.

Definition connect (file : database) : conn := Conn file file.

Definition commit (c : conn) : conn := Conn (work c) (work c).

(** [conn.close()]: what was not committed is gone. *)
Definition close (c : conn) : conn := Conn (disk c) (disk c).

(** [cursor.execute] of a schema statement, skipped once something was
    raised. *)
Definition execute_ddl (stmt : database → result database)
    (r : conn * option exn) : conn * option exn :=
  match r with
  | (c, Some e) => (c, Some e)
  | (c, None) =>
      match stmt (work c) with
      | Ok d => (Conn d d, None)
      | Raise e => (c, Some e)
      end
  end.

(** [cursor.execute] of an INSERT with one [?] per column named. *)
Definition execute_insert `{Engine} (now : string) (cols : list string)
    (args : list json) (c : conn) : result conn :=
  match work c with
  | None => Raise OperationalError
  | Some t =>
      _ ← prepare_insert t cols;
      if negb (length cols =? length args)%nat then Raise ProgrammingError
      else
        vals ← bind_parameters 0 args;
        t' ← insert_row now t cols vals;
        Ok (Conn (disk c) (Some t'))
  end.

(** ** [scripts/migrate_to_sqlite.py]: the loader *)

Definition planets_columns : list column :=
  [ Column "id" TyInteger [PrimaryKeyAutoincrement];
    Column "pl_name" TyText [NotNullOpt; UniqueOpt];
    Column "hostname" TyText [];
    Column "sy_dist" TyReal [];
    Column "pl_orbper" TyReal [];
    Column "pl_rade" TyReal [];
    Column "pl_bmasse" TyReal [];
    Column "pl_eqt" TyReal [];
    Column "pl_orbsmax" TyReal [];
    Column "pl_orbeccen" TyReal [];
    Column "st_spectype" TyText [];
    Column "st_teff" TyReal [];
    Column "st_rad" TyReal [];
    Column "st_mass" TyReal [];
    Column "disc_year" TyInteger [];
    Column "discoverymethod" TyText [];
    Column "ra" TyReal [];
    Column "dec" TyReal [];
    Column "default_flag" TyInteger [];
    Column "created_at" TyTimestamp [DefaultCurrentTimestamp] ].

Definition create_database (file : database) : conn * option exn :=
  let r := (connect file, None) in
  let r := execute_ddl drop_table_if_exists r in
  let r := execute_ddl (create_table planets_columns) r in
  let r := execute_ddl (create_index "idx_pl_name" "pl_name") r in
  let r := execute_ddl (create_index "idx_disc_year" "disc_year") r in
  let r := execute_ddl (create_index "idx_discoverymethod" "discoverymethod") r in
  let r := execute_ddl (create_index "idx_pl_rade" "pl_rade") r in
  let r := execute_ddl (create_index "idx_pl_bmasse" "pl_bmasse") r in
  let r := execute_ddl (create_index "idx_st_teff" "st_teff") r in
  let r := execute_ddl (create_index "idx_sy_dist" "sy_dist") r in
  match r with
  | (c, None) => (commit c, None)
  | (c, Some e) => (c, Some e)
  end.

(** The columns the INSERT names. *)
Definition insert_columns : list string :=
  [ "pl_name"; "hostname"; "sy_dist"; "pl_orbper"; "pl_rade";
    "pl_bmasse"; "pl_eqt"; "pl_orbsmax"; "pl_orbeccen";
    "st_spectype"; "st_teff"; "st_rad"; "st_mass";
    "disc_year"; "discoverymethod"; "ra"; "dec"; "default_flag" ].

(** The tuple of arguments built from one record. *)
Definition planet_args (planet : json) : result (list json) :=
  pl_name ← py_get planet "pl_name" JNull;
  hostname ← py_get planet "hostname" JNull;
  sy_dist ← py_get planet "sy_dist" JNull;
  pl_orbper ← py_get planet "pl_orbper" JNull;
  pl_rade ← py_get planet "pl_rade" JNull;
  pl_bmasse ← py_get planet "pl_bmasse" JNull;
  pl_eqt ← py_get planet "pl_eqt" JNull;
  pl_orbsmax ← py_get planet "pl_orbsmax" JNull;
  pl_orbeccen ← py_get planet "pl_orbeccen" JNull;
  st_spectype ← py_get planet "st_spectype" JNull;
  st_teff ← py_get planet "st_teff" JNull;
  st_rad ← py_get planet "st_rad" JNull;
  st_mass ← py_get planet "st_mass" JNull;
  disc_year ← py_get planet "disc_year" JNull;
  discoverymethod ← py_get planet "discoverymethod" JNull;
  ra ← py_get planet "ra" JNull;
  dec ← py_get planet "dec" JNull;
  default_flag ← py_get planet "default_flag" (JInt 1);
  Ok [ pl_name; hostname; sy_dist; pl_orbper; pl_rade;
       pl_bmasse; pl_eqt; pl_orbsmax; pl_orbeccen;
       st_spectype; st_teff; st_rad; st_mass;
       disc_year; discoverymethod; ra; dec; default_flag ].

(** The lines the loader prints.  The listing of the most frequent
    discovery methods only prints; [TopMethods] stands for it. *)
Inductive line : Type :=
| Reading
| Loaded (n : nat)
| Creating
| Warning (name : json) (e : exn)
| Error (name : json) (e : exn)
| Progress (done total skips : nat)
| Complete
| TotalInDatabase (count : nat)
| Counters (ins skips : nat)
| TopMethods
| DiscoveryYears (lo hi : sqlval)
| Saved.

(** The loader's variables while it runs. *)
Record state : Type := State {
  connection : conn;
  inserted : nat;
  skipped : nat;
  out : list line }.

Definition print (l : line) (st : state) : state :=
  State (connection st) (inserted st) (skipped st) (out st ++ [l]).

(** The body of the [try]: the arguments, then the INSERT.  [clock] gives
    the engine's CURRENT_TIMESTAMP while the n-th record is handled. *)
Definition try_insert `{Engine} (clock : nat → string) (st : state)
    (planet : json) : result conn :=
  args ← planet_args planet;
  execute_insert (clock (inserted st + skipped st)%nat) insert_columns args
    (connection st).

(** The body of either [except] clause: count the skip, and report it
    while the count is at most five.  The report reads the record's name,
    which raises in its turn when the record is no dict. *)
Definition skip (report : json → exn → line) (e : exn) (st : state)
    (planet : json) : state * option exn :=
  let st := State (connection st) (inserted st) (S (skipped st)) (out st) in
  if (skipped st <=? 5)%nat then
    match py_get planet "pl_name" JNull with
    | Ok name => (print (report name e) st, None)
    | Raise e' => (st, Some e')
    end
  else (st, None).

(** One round of the inner loop. *)
Definition process_planet `{Engine} (clock : nat → string) (st : state)
    (planet : json) : state * option exn :=
  match try_insert clock st planet with
  | Ok c => (State c (S (inserted st)) (skipped st) (out st), None)
  | Raise e =>
      if is_integrity e then skip Warning e st planet
      else skip Error e st planet
  end.

(** The inner loop, left at the first exception that escapes. *)
Fixpoint process_batch `{Engine} (clock : nat → string) (st : state)
    (batch : list json) : state * option exn :=
  match batch with
  | [] => (st, None)
  | planet :: rest =>
      match process_planet clock st planet with
      | (st, None) => process_batch clock st rest
      | (st, Some e) => (st, Some e)
      end
  end.

Definition batch_size : Z := 100.

(** The outer loop over the starts [range] yields: slice, insert, commit,
    report progress. *)
Fixpoint process_batches `{Engine} (clock : nat → string) (planets : list json)
    (starts : list Z) (st : state) : state * option exn :=
  match starts with
  | [] => (st, None)
  | i :: rest =>
      let batch := Py.slice planets i (i + batch_size) in
      match process_batch clock st batch with
      | (st, None) =>
          let st := State (commit (connection st)) (inserted st) (skipped st) (out st) in
          let st := print (Progress (inserted st) (length planets) (skipped st)) st in
          process_batches clock planets rest st
      | (st, Some e) => (st, Some e)
      end
  end.

(** The report after the loop. *)
Definition verify `{Engine} (st : state) : state * option exn :=
  match select_count (work (connection st)) with
  | Raise e => (st, Some e)
  | Ok count =>
      let st := print Complete st in
      let st := print (TotalInDatabase count) st in
      let st := print (Counters (inserted st) (skipped st)) st in
      let st := print TopMethods st in
      match select_min_max_disc_year (work (connection st)) with
      | Raise e => (st, Some e)
      | Ok (min_year, max_year) =>
          let st := print (DiscoveryYears min_year max_year) st in
          let st := State (close (connection st)) (inserted st) (skipped st)
                          (out st) in
          (print Saved st, None)
      end
  end.

(** [migrate_json_to_sqlite], from the parsed array and the file the
    database path names; the exception, if any, is the one that escapes. *)
Definition migrate_json_to_sqlite `{Engine} (clock : nat → string)
    (planets : list json) (file : database) : state * option exn :=
  let lines := [Reading; Loaded (length planets); Creating] in
  match create_database file with
  | (c, Some e) => (State c 0 0 lines, Some e)
  | (c, None) =>
      let st := State c 0 0 lines in
      match Py.range 0 (Z.of_nat (length planets)) batch_size with
      | None => (st, Some ValueError)
      | Some starts =>
          match process_batches clock planets starts st with
          | (st, Some e) => (st, Some e)
          | (st, None) => verify st
          end
      end
  end.

(** What the JSON path leads to. *)
Inductive source : Type :=
| Missing
| Unreadable
| Parsed (planets : list json).

(** [main]: the file left behind and the exit status. *)
Definition main `{Engine} (clock : nat → string) (src : source)
    (file : database) : database * Z :=
  match src with
  | Missing => (file, 1)
  | Unreadable => (file, 1)
  | Parsed planets =>
      match migrate_json_to_sqlite clock planets file with
      | (st, None) => (disk (connection st), 0)
      | (st, Some _) => (disk (connection st), 1)
      end
  end.

(** ** Notions the properties are stated with *)

(** The chunk of [b] items that starts at item [k * b], cut from the list
    directly. *)
Definition chunk_at {A : Type} (b : nat) (l : list A) (k : nat) : list A :=
  take b (drop (k * b) l).

Definition is_object (v : json) : bool :=
  match v with JObj _ => true | _ => false end.

(** The name a record is stored under: its arguments are built and bound,
    and the name column converts the first of them.  A record for which
    this raises is malformed. *)
Definition stored_name `{Engine} (planet : json) : result sqlval :=
  args ← planet_args planet;
  vals ← bind_parameters 0 args;
  let name := coerce TEXT (default SNull (head vals)) in
  if is_null name then Raise (IntegrityError NotNull "pl_name") else Ok name.

Definition malformed `{Engine} (planet : json) : bool :=
  match stored_name planet with Raise _ => true | Ok _ => false end.

(** Does [planet] carry the name [n]? *)
Definition named `{Engine} (n : sqlval) (planet : json) : bool :=
  match stored_name planet with Ok m => sql_eqb m n | Raise _ => false end.

(** A record has a duplicate name when an earlier record of the input
    that is not malformed carries the same name. *)
Definition duplicate `{Engine} (earlier : list json) (planet : json) : bool :=
  match stored_name planet with
  | Ok n => existsb (named n) earlier
  | Raise _ => false
  end.

Fixpoint count_duplicates `{Engine} (earlier planets : list json) : nat :=
  match planets with
  | [] => 0
  | p :: rest =>
      ((if duplicate earlier p then 1 else 0)
       + count_duplicates (earlier ++ [p]) rest)%nat
  end.

Definition count_malformed `{Engine} (planets : list json) : nat :=
  length (List.filter malformed planets).

(** What the insert of [planet] raises after the records [earlier]. *)
Definition failure `{Engine} (earlier : list json) (planet : json) : option exn :=
  match stored_name planet with
  | Raise e => Some e
  | Ok _ =>
      if duplicate earlier planet then Some (IntegrityError Unique "pl_name")
      else None
  end.

(** The failing records of an input, in order, each with what it raised. *)
Fixpoint failures `{Engine} (earlier planets : list json) : list (json * exn) :=
  match planets with
  | [] => []
  | p :: rest =>
      match failure earlier p with
      | Some e => (p, e) :: failures (earlier ++ [p]) rest
      | None => failures (earlier ++ [p]) rest
      end
  end.

(** [planet.get("pl_name")] of a dict. *)
Definition record_name (planet : json) : json :=
  match planet with
  | JObj fields => default JNull (fields !! "pl_name")
  | _ => JNull
  end.

(** The line a reported failure leaves on the console. *)
Definition alert (f : json * exn) : line :=
  if is_integrity f.2 then Warning (record_name f.1) f.2
  else Error (record_name f.1) f.2.

Definition is_alert (l : line) : bool :=
  match l with Warning _ _ | Error _ _ => true | _ => false end.

(** The warnings and errors among the lines printed. *)
Definition alerts (lines : list line) : list line := List.filter is_alert lines.

(** The rows the connection sees. *)
Definition rows_of (d : database) : list (list sqlval) :=
  match d with Some t => t_rows t | None => [] end.

(** The table [create_database] leaves behind. *)
Definition planets_indexes : list index :=
  [ Index "idx_pl_name" "pl_name";
    Index "idx_disc_year" "disc_year";
    Index "idx_discoverymethod" "discoverymethod";
    Index "idx_pl_rade" "pl_rade";
    Index "idx_pl_bmasse" "pl_bmasse";
    Index "idx_st_teff" "st_teff";
    Index "idx_sy_dist" "sy_dist" ].

Definition empty_planets : table := Table planets_columns planets_indexes [] 0.

(** The name a row holds. *)
Definition row_name (row : list sqlval) : sqlval := field planets_columns "pl_name" row.

(** No two rows carry the same name. *)
Definition unique_names (rows : list (list sqlval)) : Prop :=
  ∀ (i j : nat) (r1 r2 : list sqlval),
    rows !! i = Some r1 → rows !! j = Some r2 →
    sql_eqb (row_name r1) (row_name r2) = true → i = j.

(** The row a record is stored as: the [k]-th record of the input,
    inserted when the largest rowid is [seq]. *)
Definition stored_row `{Engine} (clock : nat → string) (k : nat) (seq : Z)
    (planet : json) : list sqlval :=
  match planet_args planet ≫= bind_parameters 0 with
  | Ok vals =>
      new_row (clock k) (Table planets_columns planets_indexes [] seq)
              insert_columns vals
  | Raise _ => []
  end.

(** A state with one more skip counted. *)
Definition bump (st : state) : state :=
  State (connection st) (inserted st) (S (skipped st)) (out st).

(** The rows an input leaves in the table, in order: the rows of its
    records that do not fail, when [n] rows are stored before them. *)
Fixpoint stored_rows `{Engine} (clock : nat → string)
    (earlier planets : list json) (n : nat) : list (list sqlval) :=
  match planets with
  | [] => []
  | p :: rest =>
      match failure earlier p with
      | Some _ => stored_rows clock (earlier ++ [p]) rest n
      | None =>
          stored_row clock (length earlier) (Z.of_nat n) p
            :: stored_rows clock (earlier ++ [p]) rest (S n)
      end
  end.

(** The table that holds [rows] and nothing else happened to. *)
Definition planets_with (rows : list (list sqlval)) : table :=
  Table planets_columns planets_indexes rows (Z.of_nat (length rows)).

(** The state of a loader that has handled the records [done] and goes on:
    the table, the counters and the alerts are those the input gives. *)
Definition tracks `{Engine} (clock : nat → string) (done : list json)
    (st : state) : Prop :=
  work (connection st) = Some (planets_with (stored_rows clock [] done 0))
  ∧ inserted st = length (stored_rows clock [] done 0)
  ∧ skipped st = length (failures [] done)
  ∧ alerts (out st) = alert <$> take 5 (failures [] done).

(** The file holds what the connection saw at some earlier point. *)
Definition committed (st : state) : Prop :=
  ∃ rows : list (list sqlval),
    rows `prefix_of` rows_of (work (connection st))
    ∧ disk (connection st) = Some (planets_with rows).

(** The report of a skip raises when the record that failed is no dict
    and at most the fifth to fail: the loop ends there. *)
Definition crashes `{Engine} (done : list json) (p : json) : bool :=
  negb (is_object p) && (length (failures [] done) <? 5)%nat.

Fixpoint crash_free `{Engine} (done batch : list json) : bool :=
  match batch with
  | [] => true
  | p :: rest => negb (crashes done p) && crash_free (done ++ [p]) rest
  end.

(** How a loop that started after the records [done] and ran over [batch]
    came to [st] and [r]: every record of the batch was handled, or the
    loop ended at the first record whose report raises. *)
Definition ends `{Engine} (clock : nat → string) (done batch : list json)
    (st : state) (r : option exn) : Prop :=
  (r = None ∧ crash_free done batch = true ∧ tracks clock (done ++ batch) st)
  ∨ (∃ (l1 : list json) (p : json) (l2 : list json) (st1 : state),
       batch = l1 ++ p :: l2
       ∧ crash_free done l1 = true
       ∧ crashes (done ++ l1) p = true
       ∧ tracks clock (done ++ l1) st1
       ∧ st = bump st1
       ∧ r = Some AttributeError).

(** The lines of the report, for the table [t] and the two counters. *)
Definition report_lines (t : table) (ins skips : nat) : list line :=
  [ Complete; TotalInDatabase (length (t_rows t)); Counters ins skips;
    TopMethods;
    DiscoveryYears (agg_min (non_null_years t)) (agg_max (non_null_years t));
    Saved ].

(** The state after a record went in. *)
Definition after_insert `{Engine} (clock : nat → string) (st : state)
    (idx : list index) (rows : list (list sqlval)) (seq : Z) (p : json) : state :=
  State (Conn (disk (connection st))
           (Some (Table planets_columns idx
                    (rows ++ [stored_row clock (inserted st + skipped st) seq p])
                    (seq + 1))))
        (S (inserted st)) (skipped st) (out st).

(** ** Notions of the further properties *)



(** Is this line one of the loop's progress lines? *)
Definition is_progress (l : line) : bool :=
  match l with Progress _ _ _ => true | _ => false end.

(** ** Sample data *)

Definition sample_clock (n : nat) : string := "2025-10-05 12:00:00".

Definition sample_planet (name : string) (year : Z) : json :=
  JObj {[ "pl_name" := JStr name; "disc_year" := JInt year ]}.

(** An archive that answers every request with a 404. *)
Definition sample_host : Host :=
  {| server := λ _, Ok (Response 404 "Not Found");
     json_loads := λ _, None;
     json_dumps := λ _, "" |}.

(** An archive that answers every request with one planet. *)
Definition sample_archive : Host :=
  {| server := λ _, Ok (Response 200 "[{}]");
     json_loads := λ _, Some (JArr [JObj ∅]);
     json_dumps := λ _, "[one planet]" |}.

Definition empty_world : world := World ∅ [] [].

(** Three planets, the second with no year of discovery. *)
Definition sample_years : list json :=
  [ sample_planet "Kepler-22 b" 2011;
    JObj {[ "pl_name" := JStr "Proxima Cen b" ]};
    sample_planet "51 Peg b" 1995 ].

(** 250 records, the last two under names met before. *)
Definition catalogue : list json :=
  ((λ i : nat, sample_planet ("Planet " +:+ Py.str_int (Z.of_nat i)) 2000)
     <$> seq 0 248)
  ++ [ sample_planet "Planet 5" 2001; sample_planet "Planet 7" 2002 ].

(** A planet, an entry that is no dict, and another planet. *)
Definition sample_broken : list json :=
  [ sample_planet "Kepler-22 b" 2011; JNull; sample_planet "51 Peg b" 1995 ].

(** One planet, seven times over. *)
Definition sample_repeats : list json :=
  replicate 7 (sample_planet "Kepler-22 b" 2011).


(** Two planets, a second record for the first of them, and a record
    without a name. *)
Definition sample_planets : list json :=
  [ sample_planet "Kepler-22 b" 2011;
    sample_planet "51 Peg b" 1995;
    sample_planet "Kepler-22 b" 2012;
    JObj {[ "hostname" := JStr "Sun" ]} ].

(** * Properties *)

Section Chunks.
Context {A : Type}.
Implicit Types (l : list A) (b k : nat).

Lemma chunk_at_succ b l k : chunk_at b l (S k) = chunk_at b (drop b l) k.
Proof.
  unfold chunk_at. rewrite drop_drop. do 2 f_equal; lia.
Qed.

Lemma concat_chunks b l k :
  (length l ≤ k * b)%nat → concat (chunk_at b l <$> seq 0 k) = l.
Proof.
  revert l. induction k as [|k IH]; intros l Hlen.
  - simpl in *. destruct l; simpl in *; [done | lia].
  - rewrite <- cons_seq, <- fmap_S_seq. simpl.
    rewrite <- list_fmap_compose.
    rewrite (list_fmap_ext _ (chunk_at b (drop b l)) (seq 0 k)).
    2: { intros i x _. simpl. apply chunk_at_succ. }
    rewrite IH.
    + unfold chunk_at. simpl. apply take_drop.
    + rewrite length_drop. lia.
Qed.

Lemma length_chunk_at b l k :
  length (chunk_at b l k) = (b `min` (length l - k * b))%nat.
Proof. unfold chunk_at. by rewrite length_take, length_drop. Qed.

(** A slice that starts inside the list is the chunk cut directly. *)
Lemma slice_chunk b l k :
  (k * b ≤ length l)%nat →
  Py.slice l (Z.of_nat k * Z.of_nat b) (Z.of_nat k * Z.of_nat b + Z.of_nat b)
  = chunk_at b l k.
Proof.
  intros Hk. unfold Py.slice, Py.clamp, chunk_at.
  destruct (Z.ltb_spec (Z.of_nat k * Z.of_nat b) 0) as [?|_]; [lia|].
  destruct (Z.ltb_spec (Z.of_nat k * Z.of_nat b + Z.of_nat b) 0) as [?|_]; [lia|].
  rewrite (Z.min_l (Z.of_nat k * Z.of_nat b)) by lia.
  replace (Z.to_nat (Z.of_nat k * Z.of_nat b)) with (k * b)%nat by lia.
  destruct (Z.min_spec (Z.of_nat k * Z.of_nat b + Z.of_nat b) (Z.of_nat (length l)))
    as [[_ ->]|[Hle ->]].
  - f_equal. lia.
  - rewrite !take_ge; [done | | ]; rewrite length_drop; lia.
Qed.
End Chunks.

(** The number of chunks, between the bounds that pin it down. *)
Lemma range_len_bounds (n b : Z) :
  0 ≤ n → 0 < b →
  let k := Py.range_len 0 n b in
  0 ≤ k ∧ n ≤ k * b ∧ (0 < k → (k - 1) * b < n).
Proof.
  intros Hn Hb. unfold Py.range_len.
  destruct (Z.ltb_spec 0 b) as [_|?]; [|lia].
  destruct (Z.ltb_spec 0 n) as [Hpos|?]; [|simpl; lia].
  replace (n - 0 - 1) with (n - 1) by lia.
  pose proof (Z.mul_div_le (n - 1) b Hb).
  pose proof (Z.mul_succ_div_gt (n - 1) b Hb).
  pose proof (Z.div_pos (n - 1) b).
  simpl. nia.
Qed.

(** For a positive size the helper yields the chunks cut from the list
    directly, as many as it takes to cover the list and no more. *)
Lemma paginate_cut {A : Type} (data : list A) (b : nat) :
  (0 < b)%nat →
  ∃ k : nat,
    paginate data (Z.of_nat b) = Some (chunk_at b data <$> seq 0 k)
    ∧ (length data ≤ k * b)%nat
    ∧ ∀ i : nat, (i < k)%nat → (i * b < length data)%nat.
Proof.
  intros Hb.
  set (n := Z.of_nat (length data)).
  destruct (range_len_bounds n (Z.of_nat b)) as (Hk0 & Hup & Hlow); [lia | lia |].
  set (k := Z.to_nat (Py.range_len 0 n (Z.of_nat b))) in *.
  assert (Hkz : Py.range_len 0 n (Z.of_nat b) = Z.of_nat k) by lia.
  rewrite Hkz in Hup, Hlow.
  assert (Hstarts : ∀ i : nat, (i < k)%nat → (i * b < length data)%nat).
  { intros i Hi. subst n. nia. }
  exists k. split_and!; [|subst n; nia|exact Hstarts].
  unfold paginate, Py.range. fold n. fold k.
  destruct (Z.eqb_spec (Z.of_nat b) 0) as [?|_]; [lia|]. simpl. f_equal.
  rewrite <- list_fmap_compose. apply list_fmap_ext.
  intros j i Hj. apply lookup_seq in Hj as [-> Hj]. simpl.
  rewrite Z.add_0_l. apply slice_chunk.
  specialize (Hstarts j Hj). lia.
Qed.

(** C9: for a positive chunk size the helper yields chunks whose
    concatenation is the input, every chunk but the last of exactly the
    given size, the last one non-empty and no longer than it. *)
Theorem paginate_chunks {A : Type} (data : list A) (batch_size : Z) :
  0 < batch_size →
  ∃ chunks : list (list A),
    paginate data batch_size = Some chunks
    ∧ concat chunks = data
    ∧ ∀ (i : nat) (c : list A), chunks !! i = Some c →
        (0 < length c)%nat
        ∧ Z.of_nat (length c) ≤ batch_size
        ∧ ((S i < length chunks)%nat → Z.of_nat (length c) = batch_size).
Proof.
  intros Hb.
  destruct (paginate_cut data (Z.to_nat batch_size)) as (k & Heq & Hcover & Hstarts);
    [lia|].
  rewrite Z2Nat.id in Heq by lia. set (b := Z.to_nat batch_size) in *.
  eexists. split; [exact Heq|]. split.
  - by apply concat_chunks.
  - intros i c Hc. rewrite list_lookup_fmap in Hc.
    destruct (seq 0 k !! i) as [j|] eqn:Hj; [|easy].
    apply lookup_seq in Hj as [-> Hi]. simpl in Hc. injection Hc as <-.
    rewrite length_chunk_at. pose proof (Hstarts i Hi) as Hstart.
    split; [lia|]. split; [lia|].
    rewrite length_fmap, length_seq. intros HS.
    specialize (Hstarts (S i) HS). simpl in Hstarts. lia.
Qed.

(** C9, at a concrete input: seven items in chunks of three. *)
Lemma paginate_chunks_witness :
  ∃ chunks : list (list nat),
    paginate [1; 2; 3; 4; 5; 6; 7]%nat 3 = Some chunks
    ∧ concat chunks = [1; 2; 3; 4; 5; 6; 7]%nat
    ∧ ∀ (i : nat) (c : list nat), chunks !! i = Some c →
        (0 < length c)%nat
        ∧ Z.of_nat (length c) ≤ 3
        ∧ ((S i < length chunks)%nat → Z.of_nat (length c) = 3).
Proof. apply (paginate_chunks [1; 2; 3; 4; 5; 6; 7]%nat 3). lia. Defined.

(** ** The order and the equality of stored values *)

Lemma text_leb_refl (s : string) : text_leb s s = true.
Proof.
  induction s as [|a s IH]; simpl; [done|].
  rewrite N.eqb_refl, IH. apply orb_true_r.
Qed.

Lemma text_leb_total (s t : string) : text_leb s t = true ∨ text_leb t s = true.
Proof.
  revert t. induction s as [|a s IH]; intros [|b t]; simpl; auto.
  destruct (N.ltb_spec (Ascii.N_of_ascii a) (Ascii.N_of_ascii b)); [auto|].
  destruct (N.ltb_spec (Ascii.N_of_ascii b) (Ascii.N_of_ascii a)); [auto|].
  assert (Heq : Ascii.N_of_ascii a = Ascii.N_of_ascii b) by lia.
  rewrite Heq, N.eqb_refl. simpl. apply IH.
Qed.

Lemma text_leb_trans (s t u : string) :
  text_leb s t = true → text_leb t u = true → text_leb s u = true.
Proof.
  revert t u. induction s as [|a s IH]; intros [|b t] [|c u]; simpl; try done.
  intros H1 H2.
  apply orb_true_iff in H1 as [H1|H1]; apply orb_true_iff in H2 as [H2|H2];
    apply orb_true_iff.
  - left. apply N.ltb_lt in H1, H2. apply N.ltb_lt. lia.
  - apply andb_true_iff in H2 as [H2 _]. apply N.eqb_eq in H2.
    left. by rewrite <- H2.
  - apply andb_true_iff in H1 as [H1 _]. apply N.eqb_eq in H1.
    left. by rewrite H1.
  - apply andb_true_iff in H1 as [H1 H1'], H2 as [H2 H2'].
    apply N.eqb_eq in H1, H2. right.
    rewrite H1, H2, N.eqb_refl. simpl. by apply (IH t u).
Qed.

Lemma sql_leb_total (a b : sqlval) : sql_leb a b = true ∨ sql_leb b a = true.
Proof.
  destruct a, b; simpl; auto using text_leb_total;
    match goal with |- (?x <=? ?y) = true ∨ _ =>
      destruct (Z.leb_spec x y); [auto | right; apply Z.leb_le; lia] end.
Qed.

Lemma sql_leb_trans (a b c : sqlval) :
  sql_leb a b = true → sql_leb b c = true → sql_leb a c = true.
Proof.
  destruct a, b, c; cbn [sql_leb]; try discriminate; try reflexivity;
    try (intros H1 H2; discriminate); try apply text_leb_trans;
    rewrite !Z.leb_le; lia.
Qed.

Lemma sql_eqb_sym (a b : sqlval) : sql_eqb a b = sql_eqb b a.
Proof.
  unfold sql_eqb.
  destruct (is_null a), (is_null b), (sql_leb a b), (sql_leb b a); done.
Qed.

Lemma sql_eqb_trans (a b c : sqlval) :
  sql_eqb a b = true → sql_eqb b c = true → sql_eqb a c = true.
Proof.
  unfold sql_eqb. rewrite !andb_true_iff.
  intros [[[Ha _] Hab] Hba] [[[_ Hc] Hbc] Hcb].
  repeat split; eauto using sql_leb_trans.
Qed.

Lemma sql_eqb_refl (a : sqlval) : is_null a = false → sql_eqb a a = true.
Proof.
  intros Ha. unfold sql_eqb. rewrite Ha. simpl.
  destruct (sql_leb_total a a) as [H|H]; by rewrite H.
Qed.

Lemma sql_eqb_not_null (a b : sqlval) :
  sql_eqb a b = true → is_null a = false ∧ is_null b = false.
Proof.
  unfold sql_eqb. rewrite !andb_true_iff, !negb_true_iff. tauto.
Qed.

(** An equal name is taken exactly when the other is. *)
Lemma sql_eqb_congr (a b c : sqlval) :
  sql_eqb a b = true → sql_eqb c a = sql_eqb c b.
Proof.
  intros Hab.
  destruct (sql_eqb c a) eqn:Hca, (sql_eqb c b) eqn:Hcb; try done.
  - by rewrite (sql_eqb_trans c a b) in Hcb.
  - rewrite sql_eqb_sym in Hab. by rewrite (sql_eqb_trans c b a) in Hca.
Qed.

(** ** The schema statements *)

(** Whatever the file held, [create_database] leaves the empty table with
    its seven indexes, on disk as in the connection. *)
Lemma create_database_fresh (file : database) :
  create_database file = (Conn (Some empty_planets) (Some empty_planets), None).
Proof. reflexivity. Qed.

(** ** One INSERT into [planets] *)

Lemma planet_args_object (fields : gmap string json) :
  ∃ args, planet_args (JObj fields) = Ok args ∧ length args = 18%nat.
Proof. eexists. split; reflexivity. Qed.

Lemma planet_args_other (planet : json) :
  is_object planet = false → planet_args planet = Raise AttributeError.
Proof. by destruct planet. Qed.

Lemma bind_parameters_length (args : list json) :
  ∀ (i : nat) (vals : list sqlval),
    bind_parameters i args = Ok vals → length vals = length args.
Proof.
  induction args as [|a args IH]; intros i vals; simpl.
  - by intros [= <-].
  - destruct (bind_param i a); simpl; [|done].
    destruct (bind_parameters (S i) args) eqn:Hb; simpl; [|done].
    intros [= <-]. simpl. f_equal. eauto.
Qed.

Lemma taken_row_name (rows : list (list sqlval)) (n : sqlval) :
  taken rows 1 n = existsb (λ r, sql_eqb (row_name r) n) rows.
Proof. reflexivity. Qed.

Lemma taken_singleton (row : list sqlval) (n : sqlval) :
  taken [row] 1 n = sql_eqb (row_name row) n.
Proof. unfold taken. simpl. apply orb_false_r. Qed.

Lemma taken_app (rows rows' : list (list sqlval)) (i : nat) (n : sqlval) :
  taken (rows ++ rows') i n = taken rows i n || taken rows' i n.
Proof. apply existsb_app. Qed.

Section Insert.
Context `{Engine}.

(** The INSERT of the loader on a table with the loader's schema: the
    name is checked for NULL, then against the names stored; the rest
    goes in as it is. *)
Lemma insert_row_planets now idx rows seq v vals :
  length vals = 17%nat →
  insert_row now (Table planets_columns idx rows seq) insert_columns (v :: vals)
  = if is_null (coerce TEXT v) then Raise (IntegrityError NotNull "pl_name")
    else if taken rows 1 (coerce TEXT v)
         then Raise (IntegrityError Unique "pl_name")
         else Ok (Table planets_columns idx
                    (rows ++ [new_row now (Table planets_columns idx rows seq)
                                insert_columns (v :: vals)])
                    (seq + 1)).
Proof.
  intros Hlen.
  do 17 (destruct vals as [|? vals]; [done|]). destruct vals; [|done].
  unfold insert_row. set (row := new_row _ _ _ _). cbn in row. subst row.
  cbn -[taken]. rewrite coerce_integer. cbn.
  destruct (is_null (coerce TEXT v)); [done|].
  cbn -[taken]. by destruct (taken rows 1 (coerce TEXT v)).
Qed.

(** The new row does not depend on the indexes nor on the rows stored. *)
Lemma new_row_planets now idx rows seq vals :
  new_row now (Table planets_columns idx rows seq) insert_columns vals
  = new_row now (Table planets_columns planets_indexes [] seq) insert_columns vals.
Proof. reflexivity. Qed.

Lemma new_row_name now t v vals :
  t_columns t = planets_columns →
  row_name (new_row now t insert_columns (v :: vals)) = coerce TEXT v.
Proof. intros Hc. unfold new_row. rewrite Hc. reflexivity. Qed.

Lemma new_row_length now t cols vals :
  length (new_row now t cols vals) = length (t_columns t).
Proof. unfold new_row. by rewrite length_fmap. Qed.

End Insert.

(** ** One round of the loop *)

Section Step.
Context `{Engine}.
Implicit Types (st : state) (p : json) (earlier : list json).

(** One round, told from the record and the names stored: a record that
    is malformed or whose name is taken is skipped, any other goes in as
    [stored_row] says. *)
Lemma process_planet_raw clock st idx rows seq p :
  work (connection st) = Some (Table planets_columns idx rows seq) →
  process_planet clock st p
  = match stored_name p with
    | Raise e => if is_integrity e then skip Warning e st p else skip Error e st p
    | Ok n =>
        if taken rows 1 n
        then skip Warning (IntegrityError Unique "pl_name") st p
        else (after_insert clock st idx rows seq p, None)
    end.
Proof.
  intros Hwork.
  unfold stored_name, process_planet, try_insert, after_insert, stored_row.
  destruct (is_object p) eqn:Hobj.
  2: { rewrite (planet_args_other p Hobj). reflexivity. }
  destruct p as [| | | | | |fields]; try done.
  destruct (planet_args_object fields) as (args & -> & Hlen).
  unfold execute_insert. rewrite Hwork. cbn [mbind result_bind].
  change (prepare_insert _ insert_columns) with (Ok ()).
  cbn [mbind result_bind]. rewrite Hlen. cbn [length Nat.eqb negb insert_columns].
  destruct (bind_parameters 0 args) as [vals|e] eqn:Hbind; cbn [mbind result_bind];
    [|done].
  pose proof (bind_parameters_length _ _ _ Hbind) as Hvals. rewrite Hlen in Hvals.
  destruct vals as [|v vals]; [done|]. simpl in Hvals.
  rewrite insert_row_planets by lia.
  change (default SNull (head (v :: vals))) with v.
  destruct (is_null (coerce TEXT v)) eqn:Hnull; [done|].
  destruct (taken rows 1 (coerce TEXT v)); [done|].
  cbn [mbind result_bind]. by rewrite new_row_planets.
Qed.

(** A record with a name is a dict, its name is not NULL, and its row
    carries that name. *)
Lemma stored_name_ok clock k seq p n :
  stored_name p = Ok n →
  is_object p = true ∧ is_null n = false
  ∧ row_name (stored_row clock k seq p) = n
  ∧ length (stored_row clock k seq p) = 20%nat.
Proof.
  unfold stored_name, stored_row.
  destruct (is_object p) eqn:Hobj.
  2: { by rewrite (planet_args_other p Hobj). }
  destruct p as [| | | | | |fields]; try done.
  destruct (planet_args_object fields) as (args & -> & Hlen).
  cbn [mbind result_bind].
  destruct (bind_parameters 0 args) as [vals|e] eqn:Hbind; cbn [mbind result_bind];
    [|done].
  pose proof (bind_parameters_length _ _ _ Hbind) as Hvals. rewrite Hlen in Hvals.
  destruct vals as [|v vals]; [done|].
  change (default SNull (head (v :: vals))) with v.
  destruct (is_null (coerce TEXT v)) eqn:Hnull; [done|].
  intros [= <-]. rewrite new_row_name by done. by rewrite new_row_length.
Qed.


(** A skip counts, and reports while the count is at most five; the
    report raises when the record is no dict. *)
Lemma skip_spec report e st p :
  skip report e st p
  = if (S (skipped st) <=? 5)%nat
    then if is_object p
         then (print (report (record_name p) e) (bump st), None)
         else (bump st, Some AttributeError)
    else (bump st, None).
Proof. unfold skip, bump. simpl. by destruct (S (skipped st) <=? 5)%nat, p. Qed.

End Step.

(** ** What an input leaves behind *)

Section Input.
Context `{Engine}.
Implicit Types (p : json) (earlier l : list json) (rows : list (list sqlval)).

Lemma named_congr m n p : sql_eqb m n = true → named m p = named n p.
Proof.
  intros Hmn. unfold named. destruct (stored_name p); [|done].
  by apply sql_eqb_congr.
Qed.

Lemma existsb_named_congr m n l :
  sql_eqb m n = true → existsb (named m) l = existsb (named n) l.
Proof.
  intros Hmn. induction l as [|p l IH]; simpl; [done|].
  by rewrite IH, (named_congr m n).
Qed.

Lemma failure_none earlier p :
  failure earlier p = None →
  ∃ n, stored_name p = Ok n ∧ existsb (named n) earlier = false.
Proof.
  unfold failure, duplicate. destruct (stored_name p) as [n|e]; [|done].
  destruct (existsb (named n) earlier) eqn:Hn; [done|].
  intros _. by exists n.
Qed.

(** A record that fails adds no name to those seen. *)
Lemma failure_names earlier p e n :
  failure earlier p = Some e →
  existsb (named n) (earlier ++ [p]) = existsb (named n) earlier.
Proof.
  intros Hf. rewrite existsb_app. simpl. rewrite orb_false_r.
  destruct (named n p) eqn:Hnp; [|apply orb_false_r].
  rewrite orb_true_r. symmetry.
  unfold named in Hnp. unfold failure, duplicate in Hf.
  destruct (stored_name p) as [m|e']; [|done].
  destruct (existsb (named m) earlier) eqn:Hdup; [|done].
  by rewrite <- (existsb_named_congr m n).
Qed.

Lemma failures_app earlier l1 l2 :
  failures earlier (l1 ++ l2)
  = failures earlier l1 ++ failures (earlier ++ l1) l2.
Proof.
  revert earlier. induction l1 as [|p l1 IH]; intros earlier; simpl.
  - by rewrite app_nil_r.
  - rewrite IH, <- app_assoc. simpl. by destruct (failure earlier p).
Qed.

Lemma stored_rows_app clock earlier l1 l2 n :
  stored_rows clock earlier (l1 ++ l2) n
  = stored_rows clock earlier l1 n
    ++ stored_rows clock (earlier ++ l1) l2
         (n + length (stored_rows clock earlier l1 n)).
Proof.
  revert earlier n. induction l1 as [|p l1 IH]; intros earlier n; simpl.
  - by rewrite app_nil_r, Nat.add_0_r.
  - destruct (failure earlier p); rewrite IH, <- app_assoc; simpl; [done|].
    do 3 f_equal. lia.
Qed.

(** Every record leaves a row or a failure, never both. *)
Lemma stored_rows_failures clock earlier l n :
  (length (stored_rows clock earlier l n) + length (failures earlier l)
   = length l)%nat.
Proof.
  revert earlier n. induction l as [|p l IH]; intros earlier n; simpl; [done|].
  destruct (failure earlier p); simpl.
  - specialize (IH (earlier ++ [p]) n). lia.
  - specialize (IH (earlier ++ [p]) (S n)). lia.
Qed.


(** A record that goes in adds its name to those stored. *)
Lemma names_snoc clock earlier rows p k seq n :
  (∀ m, taken rows 1 m = existsb (named m) earlier) →
  failure earlier p = None →
  taken (rows ++ [stored_row clock k seq p]) 1 n
  = existsb (named n) (earlier ++ [p]).
Proof.
  intros Hrows Hp. destruct (failure_none _ _ Hp) as (m & Hm & _).
  destruct (stored_name_ok clock k seq p m Hm) as (_ & _ & Hname & _).
  rewrite taken_app, existsb_app, Hrows, taken_singleton, Hname. simpl.
  rewrite orb_false_r. f_equal. unfold named. by rewrite Hm.
Qed.

(** The names stored are the names seen. *)
Lemma stored_rows_names clock l :
  ∀ earlier k rows,
    (∀ n, taken rows 1 n = existsb (named n) earlier) →
    ∀ n, taken (rows ++ stored_rows clock earlier l k) 1 n
         = existsb (named n) (earlier ++ l).
Proof.
  induction l as [|p l IH]; intros earlier k rows Hrows n; simpl.
  - by rewrite !app_nil_r.
  - rewrite (cons_middle p earlier l), app_assoc.
    destruct (failure earlier p) as [e|] eqn:Hp.
    + apply IH. intros m. by rewrite (failure_names _ _ e).
    + destruct (failure_none _ _ Hp) as (m & Hm & _).
      rewrite (cons_middle _ rows), app_assoc. apply IH. intros m'.
      by apply names_snoc.
Qed.

Lemma unique_names_snoc rows row :
  unique_names rows → taken rows 1 (row_name row) = false →
  unique_names (rows ++ [row]).
Proof.
  intros Hu Hfree i j r1 r2 Hi Hj Heq.
  assert (Hno : ∀ k r, rows !! k = Some r → sql_eqb (row_name r) (row_name row) = false).
  { intros k r Hk. rewrite taken_row_name in Hfree.
    destruct (sql_eqb (row_name r) (row_name row)) eqn:Hr; [|done].
    assert (existsb (λ r, sql_eqb (row_name r) (row_name row)) rows = true); [|congruence].
    apply existsb_exists. exists r. split; [|done].
    apply list_elem_of_In, list_elem_of_lookup. eauto. }
  apply lookup_snoc_Some in Hi as [[Hi1 Hi2]|[Hi1 Hi2]];
    apply lookup_snoc_Some in Hj as [[Hj1 Hj2]|[Hj1 Hj2]]; subst.
  - by apply (Hu i j r1 r2).
  - by rewrite (Hno i r1) in Heq.
  - rewrite sql_eqb_sym in Heq. by rewrite (Hno j r2) in Heq.
  - lia.
Qed.

(** No name is stored twice. *)
Lemma stored_rows_unique clock l :
  ∀ earlier k rows,
    (∀ n, taken rows 1 n = existsb (named n) earlier) →
    unique_names rows →
    unique_names (rows ++ stored_rows clock earlier l k).
Proof.
  induction l as [|p l IH]; intros earlier k rows Hrows Hu; simpl.
  - by rewrite app_nil_r.
  - destruct (failure earlier p) as [e|] eqn:Hp.
    + apply IH; [|done]. intros m. by rewrite (failure_names _ _ e).
    + destruct (failure_none _ _ Hp) as (m & Hm & Hfree).
      destruct (stored_name_ok clock (length earlier) (Z.of_nat k) p m Hm)
        as (_ & _ & Hname & _).
      rewrite (cons_middle _ rows), app_assoc.
      apply IH.
      * intros m'. by apply names_snoc.
      * apply unique_names_snoc; [done|]. by rewrite Hname, Hrows.
Qed.

End Input.

(** ** The loop keeps track of the input *)

Section Run.
Context `{Engine} (clock : nat → string).
Implicit Types (st : state) (p : json) (done l : list json).

Lemma stored_rows_snoc done p :
  stored_rows clock [] (done ++ [p]) 0
  = stored_rows clock [] done 0
    ++ match failure done p with
       | Some _ => []
       | None => [stored_row clock (length done)
                    (Z.of_nat (length (stored_rows clock [] done 0))) p]
       end.
Proof.
  rewrite stored_rows_app. simpl. by destruct (failure done p).
Qed.

Lemma failures_snoc done p :
  failures [] (done ++ [p])
  = failures [] done
    ++ match failure done p with Some e => [(p, e)] | None => [] end.
Proof.
  rewrite failures_app. simpl. by destruct (failure done p).
Qed.

Lemma alerts_snoc (lines : list line) (l : line) :
  alerts (lines ++ [l]) = alerts lines ++ (if is_alert l then [l] else []).
Proof. unfold alerts. rewrite List.filter_app. simpl. by destruct (is_alert l). Qed.

Lemma is_alert_alert (f : json * exn) : is_alert (alert f) = true.
Proof. unfold alert. by destruct (is_integrity f.2). Qed.

Lemma tracks_start (lines : list line) (c : database) :
  alerts lines = [] →
  tracks clock [] (State (Conn c (Some empty_planets)) 0 0 lines).
Proof. intros Hl. by repeat split. Qed.

Lemma tracks_names done st n :
  tracks clock done st →
  taken (stored_rows clock [] done 0) 1 n = existsb (named n) done.
Proof. intros _. by apply (stored_rows_names clock done [] 0%nat []). Qed.

Lemma tracks_position done st :
  tracks clock done st → (inserted st + skipped st = length done)%nat.
Proof.
  intros (_ & -> & -> & _). apply stored_rows_failures.
Qed.

(** A skip of a record that fails as the input says keeps track, unless
    its report raises. *)
Lemma tracks_skip done st p e st' r :
  tracks clock done st →
  failure done p = Some e →
  (if is_integrity e then skip Warning e st p else skip Error e st p) = (st', r) →
  disk (connection st') = disk (connection st)
  ∧ if crashes done p
    then r = Some AttributeError ∧ st' = bump st
    else r = None ∧ tracks clock (done ++ [p]) st'.
Proof.
  intros (Hw & Hi & Hs & Ha) Hp Hskip.
  assert (Hrows : stored_rows clock [] (done ++ [p]) 0 = stored_rows clock [] done 0).
  { by rewrite stored_rows_snoc, Hp, app_nil_r. }
  assert (Hfail : failures [] (done ++ [p]) = failures [] done ++ [(p, e)]).
  { by rewrite failures_snoc, Hp. }
  assert (Hsk : (if is_integrity e then skip Warning e st p else skip Error e st p)
                = if (S (skipped st) <=? 5)%nat
                  then if is_object p then (print (alert (p, e)) (bump st), None)
                       else (bump st, Some AttributeError)
                  else (bump st, None)).
  { unfold alert. simpl. destruct (is_integrity e); apply skip_spec. }
  rewrite Hsk in Hskip. clear Hsk. unfold crashes. rewrite <- Hs.
  destruct (Nat.leb_spec (S (skipped st)) 5) as [Hle|Hgt];
    destruct (Nat.ltb_spec (skipped st) 5) as [Hlt|Hge]; try lia.
  - destruct (is_object p) eqn:Hobj; injection Hskip as <- <-; [|done].
    split; [done|]. split; [done|].
    unfold tracks. rewrite Hrows, Hfail. simpl. split_and!; try done.
    + rewrite length_app. simpl. lia.
    + rewrite alerts_snoc, is_alert_alert, Ha.
      rewrite !take_ge by (rewrite ?length_app; simpl; lia).
      by rewrite fmap_app.
  - injection Hskip as <- <-. rewrite andb_false_r.
    split; [done|]. split; [done|].
    unfold tracks. rewrite Hrows, Hfail. simpl. split_and!; try done.
    + rewrite length_app. simpl. lia.
    + rewrite Ha. f_equal. rewrite take_app_le by lia. done.
Qed.

(** One round keeps track of the input, unless the report of a skip
    raises; which of the two, the input tells. *)
Lemma tracks_step done st p st' r :
  tracks clock done st →
  process_planet clock st p = (st', r) →
  disk (connection st') = disk (connection st)
  ∧ if crashes done p
    then r = Some AttributeError ∧ st' = bump st
    else r = None ∧ tracks clock (done ++ [p]) st'.
Proof.
  intros Ht Hstep. pose proof Ht as (Hw & Hi & Hs & Ha).
  rewrite (process_planet_raw clock st _ _ _ p Hw) in Hstep.
  pose proof (tracks_position _ _ Ht) as Hpos.
  destruct (stored_name p) as [n|e] eqn:Hn.
  - rewrite (tracks_names done st n Ht) in Hstep.
    destruct (existsb (named n) done) eqn:Hdup.
    + apply (tracks_skip done st p (IntegrityError Unique "pl_name")); [done| |done].
      unfold failure, duplicate. by rewrite Hn, Hdup.
    + injection Hstep as <- <-. split; [done|].
      destruct (stored_name_ok clock 0 0 p n Hn) as (Hobj & _).
      unfold crashes. rewrite Hobj. simpl. split; [done|].
      assert (Hp : failure done p = None).
      { unfold failure, duplicate. by rewrite Hn, Hdup. }
      unfold tracks, after_insert. simpl.
      rewrite stored_rows_snoc, failures_snoc, Hp, app_nil_r, Hpos.
      split_and!; try done.
      * unfold planets_with. rewrite length_app. simpl. do 2 f_equal. lia.
      * rewrite length_app. simpl. lia.
  - apply (tracks_skip done st p e); [done| |done].
    unfold failure. by rewrite Hn.
Qed.

End Run.

(** ** The batches *)

(** The starts [range] yields cut the input into slices that make it up
    again. *)
Lemma range_slices {A : Type} (data : list A) (b : Z) :
  0 < b →
  ∃ starts : list Z,
    Py.range 0 (Z.of_nat (length data)) b = Some starts
    ∧ concat ((λ i, Py.slice data i (i + b)) <$> starts) = data.
Proof.
  intros Hb.
  destruct (paginate_cut data (Z.to_nat b)) as (k & Hp & Hcover & _); [lia|].
  rewrite Z2Nat.id in Hp by lia. unfold paginate in Hp.
  destruct (Py.range 0 (Z.of_nat (length data)) b) as [starts|]; [|easy].
  exists starts. split; [easy|]. simpl in Hp. injection Hp as ->.
  by apply concat_chunks.
Qed.

Section Batches.
Context `{Engine} (clock : nat → string).
Implicit Types (st : state) (p : json) (done l batch : list json).

Lemma crash_free_app done l1 l2 :
  crash_free done (l1 ++ l2)
  = crash_free done l1 && crash_free (done ++ l1) l2.
Proof.
  revert done. induction l1 as [|p l1 IH]; intros done; simpl.
  - by rewrite app_nil_r.
  - by rewrite IH, <- app_assoc, andb_assoc.
Qed.

Lemma tracks_rows done st :
  tracks clock done st →
  rows_of (work (connection st)) = stored_rows clock [] done 0.
Proof. by intros (-> & _). Qed.

(** The rows stored only grow. *)
Lemma ends_rows done batch st st' r :
  tracks clock done st → ends clock done batch st' r →
  rows_of (work (connection st)) `prefix_of` rows_of (work (connection st')).
Proof.
  intros Ht [(_ & _ & Ht')|(l1 & p & l2 & st1 & _ & _ & _ & Ht' & -> & _)];
    rewrite (tracks_rows _ _ Ht); simpl; rewrite (tracks_rows _ _ Ht');
    rewrite stored_rows_app; apply prefix_app_r; done.
Qed.

Lemma committed_ends done batch st st' r :
  tracks clock done st → ends clock done batch st' r →
  disk (connection st') = disk (connection st) →
  committed st → committed st'.
Proof.
  intros Ht He Hd (rows & Hpre & Hdisk). exists rows. split.
  - etrans; [exact Hpre|]. by eapply ends_rows.
  - by rewrite Hd.
Qed.

(** The inner loop keeps track of the input. *)
Lemma tracks_batch batch :
  ∀ done st st' r,
    tracks clock done st →
    process_batch clock st batch = (st', r) →
    disk (connection st') = disk (connection st) ∧ ends clock done batch st' r.
Proof.
  induction batch as [|p batch IH]; intros done st st' r Ht Hrun; simpl in Hrun.
  - injection Hrun as <- <-. split; [done|]. left. by rewrite app_nil_r.
  - destruct (process_planet clock st p) as [st1 r1] eqn:Hstep.
    destruct (tracks_step clock _ _ _ _ _ Ht Hstep) as [Hd Hcase].
    destruct (crashes done p) eqn:Hcrash.
    + destruct Hcase as [-> ->]. injection Hrun as <- <-.
      split; [done|]. right. exists [], p, batch, st.
      rewrite app_nil_r. split_and!; done.
    + destruct Hcase as [-> Ht1].
      destruct (IH _ _ _ _ Ht1 Hrun) as [Hd' Hends]. split; [congruence|].
      destruct Hends as [(-> & Hfree & Ht')
                        |(l1 & q & l2 & st2 & -> & Hfree & Hq & Ht2 & -> & ->)].
      * left. simpl. rewrite Hcrash, Hfree.
        split_and!; try done. by rewrite (cons_middle p), app_assoc.
      * right. exists (p :: l1), q, l2, st2. simpl. rewrite Hcrash, Hfree.
        rewrite (cons_middle p done l1), app_assoc. split_and!; done.
Qed.

(** So does the outer loop, over the slices it cuts; what it commits is
    what the connection sees. *)
Lemma tracks_batches planets starts :
  ∀ done st st' r,
    tracks clock done st → committed st →
    process_batches clock planets starts st = (st', r) →
    ends clock done
      (concat ((λ i, Py.slice planets i (i + batch_size)) <$> starts)) st' r
    ∧ committed st'
    ∧ (disk (connection st) = work (connection st) → r = None →
       disk (connection st') = work (connection st')).
Proof.
  induction starts as [|i starts IH]; intros done st st' r Ht Hc Hrun;
    simpl in Hrun.
  - injection Hrun as <- <-. simpl. split; [|done]. left. by rewrite app_nil_r.
  - rewrite fmap_cons, concat_cons.
    set (rest := concat (_ <$> starts)) in *.
    set (batch := Py.slice planets i (i + batch_size)) in *.
    destruct (process_batch clock st batch) as [st1 [e|]] eqn:Hbatch.
    + injection Hrun as <- <-.
      destruct (tracks_batch _ _ _ _ _ Ht Hbatch) as [Hd Hends].
      split; [|split; [by eapply committed_ends|done]].
      destruct Hends as [[? _]|(l1 & q & l2 & st2 & Hl & Hfree & Hq & Ht2 & -> & ->)];
        [done|].
      right. exists l1, q, (l2 ++ rest), st2.
      rewrite Hl, <- app_assoc. split_and!; done.
    + destruct (tracks_batch _ _ _ _ _ Ht Hbatch)
        as [Hd [(_ & Hfree & Ht1)|(? & ? & ? & ? & _ & _ & _ & _ & _ & ?)]]; [|done].
      set (st2 := print _ _) in Hrun.
      assert (Ht2 : tracks clock (done ++ batch) st2).
      { destruct Ht1 as (Hw & Hi & Hs & Ha). subst st2. unfold tracks. simpl.
        rewrite alerts_snoc. simpl. by rewrite app_nil_r. }
      assert (Hc2 : committed st2).
      { exists (rows_of (work (connection st1))). split; [done|].
        subst st2. simpl. by destruct Ht1 as (-> & _). }
      destruct (IH _ _ _ _ Ht2 Hc2 Hrun) as (Hends & Hc' & Hdw).
      split; [|split; [done|]].
      * destruct Hends as [(-> & Hfree' & Ht')
                          |(l1 & q & l2 & st3 & Hl & Hfree' & Hq & Ht3 & -> & ->)].
        -- left. rewrite crash_free_app, Hfree, Hfree'.
           split_and!; try done. by rewrite app_assoc.
        -- right. exists (batch ++ l1), q, l2, st3.
           rewrite crash_free_app, Hfree, Hfree', Hl, !app_assoc.
           split_and!; done.
      * intros _ Hr. by apply Hdw.
Qed.

End Batches.

(** ** The whole run *)

Section Migrate.
Context `{Engine} (clock : nat → string).
Implicit Types (st : state) (planets done : list json) (file : database).

(** With the table in place the report never raises; it only prints. *)
Lemma verify_spec st t :
  work (connection st) = Some t →
  verify st
  = (State (close (connection st)) (inserted st) (skipped st)
       (out st ++ report_lines t (inserted st) (skipped st)), None).
Proof.
  intros Hw. unfold verify, print. simpl. rewrite Hw. simpl.
  by rewrite <- !app_assoc.
Qed.

Lemma close_committed (c : conn) : disk c = work c → close c = c.
Proof. destruct c as [d w]. simpl. by intros ->. Qed.

Lemma verify_tracks done st :
  tracks clock done st →
  disk (connection st) = work (connection st) →
  ∃ st', verify st = (st', None)
         ∧ tracks clock done st'
         ∧ connection st' = connection st.
Proof.
  intros (Hw & Hi & Hs & Ha) Hdw. rewrite (verify_spec st _ Hw).
  rewrite (close_committed _ Hdw).
  eexists. split; [done|]. split; [|done].
  unfold tracks. simpl. split_and!; try done.
  unfold alerts. rewrite List.filter_app. simpl. by rewrite app_nil_r.
Qed.

(** A run of the loader keeps track of its input to the end, or stops at
    the report of a skip; what it leaves in the file is what it saw at its
    last commit, and all it saw when it completes. *)
Lemma migrate_ends planets file st r :
  migrate_json_to_sqlite clock planets file = (st, r) →
  ends clock [] planets st r
  ∧ committed st
  ∧ (r = None → disk (connection st) = work (connection st)).
Proof.
  unfold migrate_json_to_sqlite. rewrite create_database_fresh.
  destruct (range_slices planets batch_size) as (starts & -> & Hcat); [done|].
  set (st0 := State _ 0 0 _).
  assert (Ht0 : tracks clock [] st0) by by apply tracks_start.
  assert (Hc0 : committed st0) by (by exists []).
  destruct (process_batches clock planets starts st0) as [st1 r1] eqn:Hrun.
  destruct (tracks_batches clock planets starts _ _ _ _ Ht0 Hc0 Hrun)
    as (Hends & Hc & Hdw).
  rewrite Hcat in Hends.
  destruct r1 as [e|].
  - intros [= <- <-]. by split_and!.
  - destruct Hends as [(_ & Hfree & Ht1)|(? & ? & ? & ? & _ & _ & _ & _ & _ & ?)];
      [|done].
    destruct (verify_tracks _ _ Ht1 (Hdw eq_refl eq_refl))
      as (st2 & -> & Ht2 & Hconn).
    intros [= <- <-]. split; [by left|]. rewrite Hconn. split; [|auto].
    destruct Hc as (rows & Hpre & Hdisk). exists rows. by rewrite Hconn.
Qed.

(** The lines a completed run ends with. *)
Lemma migrate_report planets file st :
  migrate_json_to_sqlite clock planets file = (st, None) →
  ∃ (t : table) (lines : list line),
    work (connection st) = Some t
    ∧ out st = lines ++ report_lines t (inserted st) (skipped st).
Proof.
  unfold migrate_json_to_sqlite. rewrite create_database_fresh.
  destruct (range_slices planets batch_size) as (starts & -> & Hcat); [done|].
  set (st0 := State _ 0 0 _).
  assert (Ht0 : tracks clock [] st0) by by apply tracks_start.
  assert (Hc0 : committed st0) by (by exists []).
  destruct (process_batches clock planets starts st0) as [st1 r1] eqn:Hrun.
  destruct (tracks_batches clock planets starts _ _ _ _ Ht0 Hc0 Hrun)
    as (Hends & _ & Hdw).
  destruct r1 as [e|]; [done|].
  destruct Hends as [(_ & _ & Ht1)|(? & ? & ? & ? & _ & _ & _ & _ & _ & ?)]; [|done].
  pose proof Ht1 as (Hw & _). rewrite (verify_spec st1 _ Hw).
  rewrite (close_committed _ (Hdw eq_refl eq_refl)).
  intros [= <-]. simpl. eauto.
Qed.


(** Whether a run completes, the input tells. *)
Lemma migrate_completes planets file :
  crash_free [] planets = true →
  ∃ st, migrate_json_to_sqlite clock planets file = (st, None).
Proof.
  intros Hfree.
  destruct (migrate_json_to_sqlite clock planets file) as [st [e|]] eqn:Hrun;
    [|eauto].
  destruct (migrate_ends _ _ _ _ Hrun)
    as ([[? _]|(l1 & p & l2 & st1 & -> & _ & Hp & _)] & _); [done|].
  rewrite crash_free_app in Hfree. cbn [crash_free] in Hfree.
  rewrite Hp in Hfree. simpl in Hfree. by rewrite andb_false_r in Hfree.
Qed.

End Migrate.

(** ** Two runs over one input *)

Section Twin.
Context `{Engine} (ca cb : nat → string).
Implicit Types (st : state) (p : json) (done l batch : list json).

(** How many rows an input leaves does not depend on the clock. *)
Lemma stored_rows_length done l n m :
  length (stored_rows ca done l n) = length (stored_rows cb done l m).
Proof.
  pose proof (stored_rows_failures ca done l n).
  pose proof (stored_rows_failures cb done l m). lia.
Qed.

(** The loop ends at one record only. *)
Lemma first_crash_unique l1 :
  ∀ done p l2 l1' p' l2',
    l1 ++ p :: l2 = l1' ++ p' :: l2' →
    crash_free done l1 = true → crashes (done ++ l1) p = true →
    crash_free done l1' = true → crashes (done ++ l1') p' = true →
    l1 = l1'.
Proof.
  induction l1 as [|q l1 IH]; intros done p l2 [|q' l1'] p' l2' Heq; simpl in *.
  - done.
  - injection Heq as <- _. rewrite app_nil_r.
    intros _ -> [? _]%andb_true_iff. done.
  - injection Heq as -> _. rewrite app_nil_r.
    intros [? _]%andb_true_iff _ _ Hq. by rewrite Hq in *.
  - injection Heq as <- Heq.
    intros [_ Hfree]%andb_true_iff Hp [_ Hfree']%andb_true_iff Hp'.
    f_equal. apply (IH (done ++ [q]) p l2 l1' p' l2' Heq); try done.
    + by rewrite <- app_assoc.
    + by rewrite <- app_assoc.
Qed.

(** Two loops over one input end alike. *)
Lemma ends_agree done batch sa ra sb rb :
  ends ca done batch sa ra → ends cb done batch sb rb →
  ra = rb
  ∧ inserted sa = inserted sb
  ∧ skipped sa = skipped sb
  ∧ alerts (out sa) = alerts (out sb)
  ∧ length (rows_of (work (connection sa)))
    = length (rows_of (work (connection sb))).
Proof.
  intros [(-> & Hfree & Ha)|(l1 & p & l2 & sa1 & Hl & Hfree & Hp & Ha & -> & ->)]
         [(-> & Hfree' & Hb)|(l1' & p' & l2' & sb1 & Hl' & Hfree' & Hp' & Hb & -> & ->)].
  - destruct Ha as (Hwa & -> & -> & ->), Hb as (Hwb & -> & -> & ->).
    rewrite Hwa, Hwb. simpl. split_and!; try done; apply stored_rows_length.
  - rewrite Hl', crash_free_app in Hfree. cbn [crash_free] in Hfree.
    rewrite Hp' in Hfree. simpl in Hfree. by rewrite andb_false_r in Hfree.
  - rewrite Hl, crash_free_app in Hfree'. cbn [crash_free] in Hfree'.
    rewrite Hp in Hfree'. simpl in Hfree'. by rewrite andb_false_r in Hfree'.
  - assert (l1 = l1') as <-.
    { apply (first_crash_unique l1 done p l2 l1' p' l2'); congruence. }
    destruct Ha as (Hwa & Hia & Hsa & Haa), Hb as (Hwb & Hib & Hsb & Hab).
    simpl. rewrite Hwa, Hwb, Hia, Hib, Hsa, Hsb, Haa, Hab. simpl.
    split_and!; try done; apply stored_rows_length.
Qed.

End Twin.

Section TwinRuns.
Context `{Engine} (ca cb : nat → string).
Implicit Types (st : state) (p : json) (done l batch : list json).

(** The commit after a batch, and the progress line. *)
Lemma tracks_commit (c : nat → string) done st total :
  tracks c done st →
  let st' := print (Progress (inserted st) total (skipped st))
               (State (commit (connection st)) (inserted st) (skipped st) (out st)) in
  tracks c done st' ∧ committed st'
  ∧ disk (connection st') = work (connection st').
Proof.
  intros (Hw & Hi & Hs & Ha). simpl. split_and!; try done.
  - unfold tracks. simpl. rewrite alerts_snoc. simpl. by rewrite app_nil_r.
  - exists (rows_of (work (connection st))). split; [done|]. simpl. by rewrite Hw.
Qed.

(** Two runs of the outer loop over one input leave as many rows in
    their files. *)
Lemma twin_batches planets starts :
  ∀ done sa sb sa' ra sb' rb,
    tracks ca done sa → tracks cb done sb →
    length (rows_of (disk (connection sa)))
    = length (rows_of (disk (connection sb))) →
    process_batches ca planets starts sa = (sa', ra) →
    process_batches cb planets starts sb = (sb', rb) →
    length (rows_of (disk (connection sa')))
    = length (rows_of (disk (connection sb'))).
Proof.
  induction starts as [|i starts IH]; intros done sa sb sa' ra sb' rb Ha Hb Hd;
    simpl.
  - by intros [= <- <-] [= <- <-].
  - set (batch := Py.slice planets i (i + batch_size)).
    destruct (process_batch ca sa batch) as [sa1 ra1] eqn:Hra.
    destruct (process_batch cb sb batch) as [sb1 rb1] eqn:Hrb.
    destruct (tracks_batch ca _ _ _ _ _ Ha Hra) as [Hda Hea].
    destruct (tracks_batch cb _ _ _ _ _ Hb Hrb) as [Hdb Heb].
    destruct (ends_agree ca cb _ _ _ _ _ _ Hea Heb) as (<- & _).
    destruct ra1 as [e|].
    + intros [= <- <-] [= <- <-]. congruence.
    + destruct Hea as [(_ & _ & Ha1)|(? & ? & ? & ? & _ & _ & _ & _ & _ & ?)]; [|easy].
      destruct Heb as [(_ & _ & Hb1)|(? & ? & ? & ? & _ & _ & _ & _ & _ & ?)]; [|easy].
      destruct (tracks_commit ca _ _ (length planets) Ha1) as (Ha2 & _ & Hwa).
      destruct (tracks_commit cb _ _ (length planets) Hb1) as (Hb2 & _ & Hwb).
      apply (IH _ _ _ _ _ _ _ Ha2 Hb2).
      rewrite Hwa, Hwb. simpl.
      destruct Ha1 as (-> & _), Hb1 as (-> & _). simpl.
      apply stored_rows_length.
Qed.

(** Two runs of the loader over one input, whatever their files held and
    whatever the time, end alike and leave as many rows. *)
Lemma migrate_twin planets fa fb sa ra sb rb :
  migrate_json_to_sqlite ca planets fa = (sa, ra) →
  migrate_json_to_sqlite cb planets fb = (sb, rb) →
  ra = rb
  ∧ inserted sa = inserted sb
  ∧ skipped sa = skipped sb
  ∧ alerts (out sa) = alerts (out sb)
  ∧ length (rows_of (disk (connection sa)))
    = length (rows_of (disk (connection sb))).
Proof.
  intros Hra Hrb.
  destruct (migrate_ends ca _ _ _ _ Hra) as (Hea & _).
  destruct (migrate_ends cb _ _ _ _ Hrb) as (Heb & _).
  destruct (ends_agree ca cb _ _ _ _ _ _ Hea Heb) as (<- & Hi & Hs & Hal & _).
  split_and!; try done.
  revert Hra Hrb. unfold migrate_json_to_sqlite. rewrite !create_database_fresh.
  destruct (range_slices planets batch_size) as (starts & -> & Hcat); [done|].
  set (lines := [Reading; Loaded (length planets); Creating]).
  set (st0 := State (Conn (Some empty_planets) (Some empty_planets)) 0 0 lines).
  assert (Ha0 : tracks ca [] st0) by by apply tracks_start.
  assert (Hb0 : tracks cb [] st0) by by apply tracks_start.
  destruct (process_batches ca planets starts st0) as [sa1 ra1] eqn:Hpa.
  destruct (process_batches cb planets starts st0) as [sb1 rb1] eqn:Hpb.
  pose proof (twin_batches planets starts _ _ _ _ _ _ _ Ha0 Hb0 eq_refl Hpa Hpb)
    as Hdisk.
  assert (Hc0 : committed st0) by (by exists []).
  destruct (tracks_batches ca planets starts _ _ _ _ Ha0 Hc0 Hpa)
    as (Hta & _ & Hwa).
  destruct (tracks_batches cb planets starts _ _ _ _ Hb0 Hc0 Hpb)
    as (Htb & _ & Hwb).
  specialize (Hwa eq_refl). specialize (Hwb eq_refl).
  destruct ra1 as [ea|], rb1 as [eb|].
  - by intros [= <- <-] [= <- <-].
  - intros [= <- <-]. destruct Htb as [(_ & _ & Ht)|(? & ? & ? & ? & _ & _ & _ & _ & _ & ?)]; [|easy].
    destruct (verify_tracks cb _ _ Ht (Hwb eq_refl)) as (st2 & -> & _ & Hconn).
    intros [=].
  - destruct Hta as [(_ & _ & Ht)|(? & ? & ? & ? & _ & _ & _ & _ & _ & ?)]; [|easy].
    destruct (verify_tracks ca _ _ Ht (Hwa eq_refl)) as (st2 & -> & _ & Hconn).
    intros [= <- <-] [=].
  - destruct Hta as [(_ & _ & Hta)|(? & ? & ? & ? & _ & _ & _ & _ & _ & ?)]; [|easy].
    destruct Htb as [(_ & _ & Htb)|(? & ? & ? & ? & _ & _ & _ & _ & _ & ?)]; [|easy].
    destruct (verify_tracks ca _ _ Hta (Hwa eq_refl)) as (sa2 & -> & _ & Hca).
    destruct (verify_tracks cb _ _ Htb (Hwb eq_refl)) as (sb2 & -> & _ & Hcb).
    intros [= <- <-] [= <-]. by rewrite Hca, Hcb.
Qed.

End TwinRuns.


(** ** What a run has handled *)

Section Handled.
Context `{Engine} (clock : nat → string).
Implicit Types (st : state) (p : json) (planets l : list json).

(** A run has handled a prefix of its input, all of it when it completes,
    and sees the rows that prefix leaves. *)
Lemma migrate_rows planets file st r :
  migrate_json_to_sqlite clock planets file = (st, r) →
  ∃ handled : list json,
    crash_free [] handled = true
    ∧ rows_of (work (connection st)) = stored_rows clock [] handled 0
    ∧ ((r = None ∧ handled = planets)
       ∨ (∃ q l2, planets = handled ++ q :: l2 ∧ crashes handled q = true)).
Proof.
  intros Hrun. destruct (migrate_ends clock _ _ _ _ Hrun) as (Hends & _).
  destruct Hends as [(-> & Hfree & Ht)
                    |(l1 & q & l2 & st1 & -> & Hfree & Hq & Ht & -> & ->)].
  - exists planets. split_and!; [easy| |by left]. by apply tracks_rows.
  - exists l1. split_and!; [easy| |right; by exists q, l2].
    simpl. by apply tracks_rows.
Qed.

(** No row is stored twice under one name, whatever was handled. *)
Lemma stored_rows_unique_names l : unique_names (stored_rows clock [] l 0).
Proof.
  apply (stored_rows_unique clock l [] 0%nat []); [easy|].
  by intros i j r1 r2 Hi.
Qed.

Lemma unique_names_prefix (rows rows' : list (list sqlval)) :
  rows `prefix_of` rows' → unique_names rows' → unique_names rows.
Proof.
  intros Hpre Hu i j r1 r2 Hi Hj. apply Hu; by eapply prefix_lookup_Some.
Qed.

(** Records that a run gets through are handled by every run whose input
    starts with them. *)
Lemma handled_covers (seen handled : list json) p rest :
  crash_free [] seen = true →
  (handled = seen ++ p :: rest
   ∨ (∃ q l2, seen ++ p :: rest = handled ++ q :: l2 ∧ crashes handled q = true)) →
  crashes seen p = false →
  (seen ++ [p]) `prefix_of` handled.
Proof.
  intros Hfree [->|(q & l2 & Heq & Hq)] Hp.
  - exists rest. by rewrite <- app_assoc.
  - assert (Hfree' : crash_free [] (seen ++ [p]) = true).
    { rewrite crash_free_app, Hfree. simpl. by rewrite Hp. }
    rewrite (cons_middle p seen rest), app_assoc in Heq.
    apply app_eq_app in Heq as [k [[Hk1 Hk2]|[Hk1 Hk2]]].
    + destruct k as [|q' k].
      * rewrite app_nil_r in Hk1. by rewrite Hk1.
      * injection Hk2 as <- _. rewrite Hk1, crash_free_app in Hfree'.
        cbn [crash_free] in Hfree'. change ([] ++ handled) with handled in Hfree'.
        rewrite Hq in Hfree'.
        simpl in Hfree'. by rewrite andb_false_r in Hfree'.
    + rewrite Hk1. by exists k.
Qed.

End Handled.


(** ** The row of a record *)

Section Fields.
Context `{Engine}.

Lemma bind_param_null i v : bind_param i JNull = Ok v → v = SNull.
Proof. by intros [= <-]. Qed.

(** The arguments of a dict: what it holds under each name, [None] for
    what it lacks, and 1 for a flag it lacks. *)
Lemma planet_args_fields (fields : gmap string json) :
  planet_args (JObj fields)
  = Ok [ default JNull (fields !! "pl_name"); default JNull (fields !! "hostname");
         default JNull (fields !! "sy_dist"); default JNull (fields !! "pl_orbper");
         default JNull (fields !! "pl_rade"); default JNull (fields !! "pl_bmasse");
         default JNull (fields !! "pl_eqt"); default JNull (fields !! "pl_orbsmax");
         default JNull (fields !! "pl_orbeccen");
         default JNull (fields !! "st_spectype");
         default JNull (fields !! "st_teff"); default JNull (fields !! "st_rad");
         default JNull (fields !! "st_mass"); default JNull (fields !! "disc_year");
         default JNull (fields !! "discoverymethod"); default JNull (fields !! "ra");
         default JNull (fields !! "dec");
         default (JInt 1) (fields !! "default_flag") ].
Proof. reflexivity. Qed.

(** In the row of a record that lacks the flag the flag is 1, and every
    other column the record lacks is NULL. *)
Lemma stored_row_absent clock k seq fields n :
  stored_name (JObj fields) = Ok n →
  (fields !! "default_flag" = None →
   field planets_columns "default_flag" (stored_row clock k seq (JObj fields))
   = SInt 1)
  ∧ (∀ f, f ∈ insert_columns → f ≠ "default_flag" → fields !! f = None →
     field planets_columns f (stored_row clock k seq (JObj fields)) = SNull).
Proof.
  unfold stored_name, stored_row. rewrite planet_args_fields.
  cbn [mbind result_bind bind_parameters].
  repeat match goal with
         | |- context [bind_param ?i ?a] =>
             let v := fresh "v" in
             let E := fresh "E" in
             destruct (bind_param i a) as [v|] eqn:E; cbn [mbind result_bind];
               [|intros Hx; discriminate Hx]
         end.
  intros _. split.
  - intros Hd. rewrite Hd in *.
    match goal with
    | E : bind_param _ (default (JInt 1) None) = Ok _ |- _ => injection E as <-
    end.
    cbn. apply coerce_integer.
  - intros f Hf Hne Hnone.
    repeat (apply elem_of_cons in Hf as [->|Hf]); try easy;
      rewrite Hnone in *;
      match goal with
      | E : bind_param _ (default JNull None) = Ok ?v |- _ =>
          apply bind_param_null in E; subst v
      end;
      cbn; by apply coerce_null.
Qed.

End Fields.

(** * The claims *)

(** C10: a run of the loader that gets through its whole input ends with
    an inserted count and a skipped count that add up to the length of
    the input. *)
Theorem loader_counters_total `{Engine} (clock : nat → string)
    (planets : list json) (file : database) (st : state) :
  migrate_json_to_sqlite clock planets file = (st, None) →
  (inserted st + skipped st = length planets)%nat.
Proof.
  intros Hrun. destruct (migrate_ends clock _ _ _ _ Hrun) as (Hends & _).
  destruct Hends as [(_ & _ & Ht)|(? & ? & ? & ? & _ & _ & _ & _ & _ & ?)];
    [|easy].
  by apply (tracks_position clock planets st).
Qed.

(** C10 on the sample: two rows, two skips, four records. *)
Lemma loader_counters_total_witness :
  (inserted (migrate_json_to_sqlite sample_clock sample_planets None).1
   + skipped (migrate_json_to_sqlite sample_clock sample_planets None).1
   = length sample_planets)%nat.
Proof.
  apply (loader_counters_total sample_clock sample_planets None).
  vm_compute. reflexivity.
Defined.



(** The 250 records with 2 duplicate names of the specification: 248
    inserted, 2 skipped, 248 rows. *)
Example loader_250_records :
  length catalogue = 250%nat
  ∧ count_duplicates [] catalogue = 2%nat
  ∧ count_malformed catalogue = 0%nat
  ∧ (migrate_json_to_sqlite sample_clock catalogue None).2 = None
  ∧ inserted (migrate_json_to_sqlite sample_clock catalogue None).1 = 248%nat
  ∧ skipped (migrate_json_to_sqlite sample_clock catalogue None).1 = 2%nat
  ∧ select_count
      (disk (connection (migrate_json_to_sqlite sample_clock catalogue None).1))
    = Ok 248%nat.
Proof. vm_compute. by split_and!. Qed.

(** The sample has one duplicate and one malformed record. *)
Example sample_counts :
  count_duplicates [] sample_planets = 1%nat
  ∧ count_malformed sample_planets = 1%nat.
Proof. split; vm_compute; reflexivity. Qed.

(** C2: whatever a run of the loader leaves in the file, no two rows of
    it carry the same name.  A record whose name an earlier record of the
    run went in under is rejected: loading it after the records before it
    changes no row and counts one more skip, and the row stored under
    that name stays where it is, as it is, to the end of the run. *)
Theorem loader_names_unique `{Engine} (clock : nat → string)
    (planets : list json) (file : database) (st : state) (r : option exn) :
  migrate_json_to_sqlite clock planets file = (st, r) →
  unique_names (rows_of (disk (connection st)))
  ∧ unique_names (rows_of (work (connection st)))
  ∧ ∀ (seen : list json) (p : json) (rest : list json) (st1 : state),
      planets = seen ++ p :: rest →
      duplicate seen p = true →
      migrate_json_to_sqlite clock seen file = (st1, None) →
      (∃ st2 : state,
          migrate_json_to_sqlite clock (seen ++ [p]) file = (st2, None)
          ∧ rows_of (disk (connection st2)) = rows_of (disk (connection st1))
          ∧ inserted st2 = inserted st1
          ∧ skipped st2 = S (skipped st1))
      ∧ (∃ (n : sqlval) (i : nat) (row : list sqlval),
            stored_name p = Ok n
            ∧ rows_of (disk (connection st1)) !! i = Some row
            ∧ sql_eqb (row_name row) n = true
            ∧ rows_of (work (connection st)) !! i = Some row
            ∧ (r = None → rows_of (disk (connection st)) !! i = Some row)).
Proof.
  intros Hrun.
  destruct (migrate_rows clock _ _ _ _ Hrun) as (handled & Hfree & Hrows & Hcase).
  destruct (migrate_ends clock _ _ _ _ Hrun) as (_ & Hc & Hdw).
  assert (Hu : unique_names (rows_of (work (connection st)))).
  { rewrite Hrows. apply stored_rows_unique_names. }
  split_and!; [|exact Hu|].
  { destruct Hc as (rows & Hpre & ->). simpl.
    by apply (unique_names_prefix rows _ Hpre). }
  intros seen p rest st1 -> Hdup Hrun1.
  destruct (migrate_ends clock _ _ _ _ Hrun1) as (Hends1 & _ & Hdw1).
  destruct Hends1 as [(_ & Hfree1 & Ht1)|(? & ? & ? & ? & _ & _ & _ & _ & _ & ?)];
    [|easy].
  simpl in Hfree1, Ht1. specialize (Hdw1 eq_refl).
  assert (∃ n, stored_name p = Ok n ∧ existsb (named n) seen = true)
    as (n & Hn & Hseen).
  { unfold duplicate in Hdup. destruct (stored_name p) as [n|]; [eauto|easy]. }
  destruct (stored_name_ok clock 0 0 p n Hn) as (Hobj & _).
  assert (Hp : crashes seen p = false) by (unfold crashes; by rewrite Hobj).
  assert (Hfail : failure seen p = Some (IntegrityError Unique "pl_name")).
  { unfold failure. by rewrite Hn, Hdup. }
  assert (Hsame : stored_rows clock [] (seen ++ [p]) 0 = stored_rows clock [] seen 0).
  { by rewrite stored_rows_snoc, Hfail, app_nil_r. }
  split.
  - destruct (migrate_completes clock (seen ++ [p]) file) as [st2 Hrun2].
    { rewrite crash_free_app, Hfree1. simpl. by rewrite Hp. }
    exists st2. split; [easy|].
    destruct (migrate_ends clock _ _ _ _ Hrun2) as (Hends2 & _ & Hdw2).
    destruct Hends2 as [(_ & _ & Ht2)|(? & ? & ? & ? & _ & _ & _ & _ & _ & ?)];
      [|easy].
    simpl in Ht2. rewrite (Hdw2 eq_refl), Hdw1.
    rewrite (tracks_rows clock _ _ Ht1), (tracks_rows clock _ _ Ht2).
    destruct Ht1 as (_ & -> & -> & _), Ht2 as (_ & -> & -> & _).
    rewrite Hsame, failures_snoc, Hfail, length_app. simpl.
    split_and!; [easy..|lia].
  - pose proof (tracks_names clock seen st1 n Ht1) as Htaken.
    rewrite Hseen, taken_row_name in Htaken.
    apply existsb_exists in Htaken as (row & Hin & Heq).
    apply list_elem_of_In, list_elem_of_lookup in Hin as [i Hi].
    assert (Hpre : (seen ++ [p]) `prefix_of` handled).
    { apply (handled_covers seen handled p rest); [easy| |easy].
      destruct Hcase as [[_ ->]|Hq]; [by left|by right]. }
    destruct Hpre as [k ->].
    assert (Hlook : rows_of (work (connection st)) !! i = Some row).
    { rewrite Hrows, stored_rows_app, Hsame. by apply lookup_app_l_Some. }
    exists n, i, row. rewrite Hdw1, (tracks_rows clock _ _ Ht1).
    split_and!; try easy. intros ->. by rewrite (Hdw eq_refl).
Qed.

(** C2 on the sample: the second record for Kepler-22 b is rejected, and
    the row of 2011 is there at the end. *)
Lemma loader_names_unique_witness :
  let st := (migrate_json_to_sqlite sample_clock sample_planets None).1 in
  unique_names (rows_of (disk (connection st)))
  ∧ ∃ (i : nat) (row : list sqlval),
      rows_of (disk (connection st)) !! i = Some row
      ∧ sql_eqb (row_name row) (SText "Kepler-22 b") = true
      ∧ field planets_columns "disc_year" row = SInt 2011.
Proof.
  intros st.
  destruct (loader_names_unique sample_clock sample_planets None st None)
    as (Hu & _ & Hdup); [vm_compute; reflexivity|].
  split; [exact Hu|].
  destruct (Hdup (take 2 sample_planets) (sample_planet "Kepler-22 b" 2012)
              (drop 3 sample_planets)
              (migrate_json_to_sqlite sample_clock (take 2 sample_planets) None).1)
    as (_ & n & i & row & Hn & Hi & Heq & _ & Hlast);
    [reflexivity | reflexivity | vm_compute; reflexivity |].
  exists 0%nat, [SInt 1; SText "Kepler-22 b"; SNull; SNull; SNull; SNull; SNull;
                 SNull; SNull; SNull; SNull; SNull; SNull; SNull; SInt 2011;
                 SNull; SNull; SNull; SInt 1; SText "2025-10-05 12:00:00"].
  vm_compute. by split_and!.
Defined.

(** C3: a second run of the loader over the same input, started on the
    file the first run left and at any later time, ends as the first did
    and leaves as many rows, with the same counters: it drops the table
    and creates it again, so that nothing it does depends on what the
    file held. *)
Theorem loader_idempotent `{Engine} (clock1 clock2 : nat → string)
    (planets : list json) (file : database) (st1 : state) (r1 : option exn) :
  migrate_json_to_sqlite clock1 planets file = (st1, r1) →
  ∃ (st2 : state) (count : nat),
    migrate_json_to_sqlite clock2 planets (disk (connection st1)) = (st2, r1)
    ∧ select_count (disk (connection st1)) = Ok count
    ∧ select_count (disk (connection st2)) = Ok count
    ∧ inserted st2 = inserted st1
    ∧ skipped st2 = skipped st1
    ∧ ∀ file' : database,
        migrate_json_to_sqlite clock2 planets file'
        = migrate_json_to_sqlite clock2 planets (disk (connection st1)).
Proof.
  intros Hrun1.
  destruct (migrate_json_to_sqlite clock2 planets (disk (connection st1)))
    as [st2 r2] eqn:Hrun2.
  destruct (migrate_twin clock1 clock2 _ _ _ _ _ _ _ Hrun1 Hrun2)
    as (<- & Hi & Hs & _ & Hlen).
  destruct (migrate_ends clock1 _ _ _ _ Hrun1) as (_ & (rows1 & _ & Hd1) & _).
  destruct (migrate_ends clock2 _ _ _ _ Hrun2) as (_ & (rows2 & _ & Hd2) & _).
  rewrite Hd1, Hd2 in Hlen. simpl in Hlen.
  exists st2, (length rows1). rewrite Hd1, Hd2. simpl.
  split_and!; [easy | easy | by rewrite Hlen | easy | easy |].
  intros file'. unfold migrate_json_to_sqlite.
  by rewrite !create_database_fresh.
Qed.

(** C3 on the sample: two rows after the first run, two after the second. *)
Lemma loader_idempotent_witness :
  ∃ (st2 : state) (count : nat),
    migrate_json_to_sqlite sample_clock sample_planets
      (disk (connection (migrate_json_to_sqlite sample_clock sample_planets None).1))
    = (st2, None)
    ∧ select_count
        (disk (connection (migrate_json_to_sqlite sample_clock sample_planets None).1))
      = Ok count
    ∧ select_count (disk (connection st2)) = Ok count
    ∧ inserted st2
      = inserted (migrate_json_to_sqlite sample_clock sample_planets None).1
    ∧ skipped st2
      = skipped (migrate_json_to_sqlite sample_clock sample_planets None).1
    ∧ ∀ file' : database,
        migrate_json_to_sqlite sample_clock sample_planets file'
        = migrate_json_to_sqlite sample_clock sample_planets
            (disk (connection (migrate_json_to_sqlite sample_clock sample_planets None).1)).
Proof.
  apply (loader_idempotent sample_clock sample_clock sample_planets None).
  vm_compute. reflexivity.
Defined.

(** C4: for a record that has no [default_flag] the INSERT is given 1 for
    the flag and [None] for every other field the record lacks; when the
    record goes in, its row holds 1 in [default_flag] and NULL in the
    other columns it lacks, and stays so to the end of the run. *)
Theorem loader_default_flag `{Engine} (clock : nat → string)
    (seen : list json) (fields : gmap string json) (rest : list json)
    (file : database) (st : state) (r : option exn) (st1 : state) :
  migrate_json_to_sqlite clock (seen ++ JObj fields :: rest) file = (st, r) →
  migrate_json_to_sqlite clock seen file = (st1, None) →
  fields !! "default_flag" = None →
  (∃ args : list json,
      planet_args (JObj fields) = Ok args
      ∧ args !! 17%nat = Some (JInt 1)
      ∧ ∀ (j : nat) (f : string),
          insert_columns !! j = Some f → f ≠ "default_flag" →
          fields !! f = None → args !! j = Some JNull)
  ∧ ∃ st2 : state,
      migrate_json_to_sqlite clock (seen ++ [JObj fields]) file = (st2, None)
      ∧ ((failure seen (JObj fields) ≠ None
          ∧ rows_of (disk (connection st2)) = rows_of (disk (connection st1)))
         ∨ (∃ row : list sqlval,
               failure seen (JObj fields) = None
               ∧ rows_of (disk (connection st2))
                 = rows_of (disk (connection st1)) ++ [row]
               ∧ field planets_columns "default_flag" row = SInt 1
               ∧ (∀ f : string,
                     f ∈ insert_columns → f ≠ "default_flag" →
                     fields !! f = None → field planets_columns f row = SNull)
               ∧ rows_of (work (connection st))
                   !! length (rows_of (disk (connection st1))) = Some row
               ∧ (r = None →
                  rows_of (disk (connection st))
                    !! length (rows_of (disk (connection st1))) = Some row))).
Proof.
  intros Hrun Hrun1 Hflag. set (p := JObj fields) in *. split.
  { eexists. split; [apply planet_args_fields|]. rewrite Hflag. split; [easy|].
    intros j f Hj Hne Hf.
    do 18 (destruct j as [|j]; [injection Hj as <-; by rewrite ?Hf|]). easy. }
  destruct (migrate_rows clock _ _ _ _ Hrun) as (handled & Hfree & Hrows & Hcase).
  destruct (migrate_ends clock _ _ _ _ Hrun) as (_ & _ & Hdw).
  destruct (migrate_ends clock _ _ _ _ Hrun1) as (Hends1 & _ & Hdw1).
  destruct Hends1 as [(_ & Hfree1 & Ht1)|(? & ? & ? & ? & _ & _ & _ & _ & _ & ?)];
    [|easy].
  simpl in Hfree1, Ht1. specialize (Hdw1 eq_refl).
  assert (Hp : crashes seen p = false) by easy.
  destruct (migrate_completes clock (seen ++ [p]) file) as [st2 Hrun2].
  { rewrite crash_free_app, Hfree1. cbn [crash_free andb].
    change ([] ++ seen) with seen. by rewrite Hp. }
  exists st2. split; [easy|].
  destruct (migrate_ends clock _ _ _ _ Hrun2) as (Hends2 & _ & Hdw2).
  destruct Hends2 as [(_ & _ & Ht2)|(? & ? & ? & ? & _ & _ & _ & _ & _ & ?)];
    [|easy].
  simpl in Ht2. rewrite (Hdw2 eq_refl), Hdw1.
  rewrite (tracks_rows clock _ _ Ht1), (tracks_rows clock _ _ Ht2).
  pose proof (stored_rows_snoc clock seen p) as Hsnoc.
  destruct (failure seen p) as [e|] eqn:Hfail.
  - left. by rewrite Hsnoc, app_nil_r.
  - right. eexists. split; [easy|]. split; [exact Hsnoc|].
    destruct (failure_none _ _ Hfail) as (n & Hn & _).
    destruct (stored_row_absent clock (length seen)
                (Z.of_nat (length (stored_rows clock [] seen 0))) fields n Hn)
      as [Hone Hnull].
    split; [by apply Hone|]. split; [exact Hnull|].
    assert (Hpre : (seen ++ [p]) `prefix_of` handled).
    { apply (handled_covers seen handled p rest); [easy| |easy].
      destruct Hcase as [[_ ->]|Hq]; [by left|by right]. }
    destruct Hpre as [k ->].
    assert (Hlook : rows_of (work (connection st))
                      !! length (stored_rows clock [] seen 0)
                    = Some (stored_row clock (length seen)
                              (Z.of_nat (length (stored_rows clock [] seen 0))) p)).
    { rewrite Hrows, stored_rows_app, Hsnoc. apply lookup_app_l_Some.
      by apply list_lookup_middle. }
    split; [exact Hlook|]. intros ->. by rewrite (Hdw eq_refl).
Qed.

(** C4 on the sample: the row of 51 Peg b, a record with a name and a
    year only, holds 1 for the flag and NULL for the host. *)
Lemma loader_default_flag_witness :
  ∃ row : list sqlval,
    rows_of (disk (connection
       (migrate_json_to_sqlite sample_clock sample_planets None).1)) !! 1%nat
    = Some row
    ∧ field planets_columns "default_flag" row = SInt 1
    ∧ field planets_columns "hostname" row = SNull.
Proof.
  destruct (loader_default_flag sample_clock
              [sample_planet "Kepler-22 b" 2011]
              {[ "pl_name" := JStr "51 Peg b"; "disc_year" := JInt 1995 ]}
              (drop 2 sample_planets) None
              (migrate_json_to_sqlite sample_clock sample_planets None).1 None
              (migrate_json_to_sqlite sample_clock
                 [sample_planet "Kepler-22 b" 2011] None).1)
    as (_ & st2 & _ & [[Hfail _]|(row & _ & _ & Hone & Hnull & _ & Hlast)]).
  - vm_compute. reflexivity.
  - vm_compute. reflexivity.
  - reflexivity.
  - exfalso. apply Hfail. vm_compute. reflexivity.
  - exists row. split; [exact (Hlast eq_refl)|]. split; [exact Hone|].
    apply Hnull; [|easy|reflexivity].
    apply list_elem_of_In. simpl. auto.
Defined.

(** ** The fetcher *)

Lemma slice_take {A : Type} (l : list A) (n : nat) :
  Py.slice l 0 (Z.of_nat n) = take n l.
Proof.
  unfold Py.slice, Py.clamp.
  change (0 <? 0) with false. cbv iota.
  destruct (Z.ltb_spec (Z.of_nat n) 0) as [?|_]; [lia|].
  rewrite (Z.min_l 0) by lia. rewrite Z.sub_0_r.
  change (drop (Z.to_nat 0) l) with l.
  destruct (Z.min_spec (Z.of_nat n) (Z.of_nat (length l))) as [[_ ->]|[Hle ->]].
  - by rewrite Nat2Z.id.
  - rewrite Nat2Z.id, !take_ge; [easy|lia|lia].
Qed.

(** The excerpt of a body is its first 200 characters. *)
Lemma excerpt_take (body : string) :
  String.list_ascii_of_string (excerpt body)
  = take 200 (String.list_ascii_of_string body).
Proof.
  unfold excerpt. rewrite String.list_ascii_of_string_of_list_ascii.
  apply (slice_take _ 200).
Qed.

(** C5: on a response whose status is not 200 the fetcher raises at once
    an error whose message holds the status code in decimal and the first
    200 characters of the body; it has sent the one request and no other,
    and no file is written.  For a 404 the message reads HTTP 404. *)
Theorem fetcher_fails_on_status `{Host} (w : world) (resp : response) :
  server fetch_request = Ok resp →
  status_code resp ≠ 200 →
  ∃ w' : world,
    fetcher_main w = (w', Raise (RuntimeError (http_error resp)))
    ∧ fetch_all_exoplanets w = (w', Raise (RuntimeError (http_error resp)))
    ∧ http_error resp
      = "HTTP " +:+ Py.str_int (status_code resp) +:+ ": " +:+ excerpt (text resp)
    ∧ String.list_ascii_of_string (excerpt (text resp))
      = take 200 (String.list_ascii_of_string (text resp))
    ∧ sent w' = sent w ++ [fetch_request]
    ∧ files w' = files w
    ∧ (status_code resp = 404 →
       http_error resp = "HTTP 404: " +:+ excerpt (text resp)).
Proof.
  intros Hresp Hstatus.
  assert (Hfetch : fetch_all_exoplanets w
                   = (send fetch_request (say Requesting w),
                      Raise (RuntimeError (http_error resp)))).
  { unfold fetch_all_exoplanets. rewrite Hresp.
    destruct (Z.eqb_spec (status_code resp) 200) as [?|_]; [easy|]. reflexivity. }
  exists (send fetch_request (say Requesting w)).
  split_and!; try easy.
  - unfold fetcher_main. by rewrite Hfetch.
  - apply excerpt_take.
  - intros H404. unfold http_error. by rewrite H404.
Qed.

(** C5 against an archive that answers 404. *)
Lemma fetcher_fails_on_status_witness :
  ∃ w' : world,
    @fetcher_main sample_host empty_world
    = (w', Raise (RuntimeError "HTTP 404: Not Found"))
    ∧ sent w' = [fetch_request]
    ∧ files w' = ∅.
Proof.
  destruct (@fetcher_fails_on_status sample_host empty_world
              (Response 404 "Not Found"))
    as (w' & Hmain & _ & _ & _ & Hsent & Hfiles & _).
  - reflexivity.
  - simpl. lia.
  - exists w'. split_and!; [exact Hmain|exact Hsent|exact Hfiles].
Defined.

(** ** The report *)

Lemma sql_leb_int (a b : Z) : sql_leb (SInt a) (SInt b) = true ↔ a ≤ b.
Proof.
  simpl. rewrite Z.leb_le, !Z.shiftl_mul_pow2 by lia.
  pose proof (Z.pow_pos_nonneg 2 1074). nia.
Qed.

Lemma sql_leb_refl (a : sqlval) : sql_leb a a = true.
Proof. by destruct (sql_leb_total a a). Qed.

(** [MIN] from a first value on: the result is that value or a later one,
    and lies below them all. *)
Lemma agg_min_from (vs : list sqlval) :
  ∀ best : sqlval,
    is_null best = false →
    Forall (λ v, is_null v = false) vs →
    let m := foldl (λ best v,
                      if is_null v then best
                      else if is_null best then v
                      else if sql_leb best v then best else v) best vs in
    m ∈ best :: vs ∧ ∀ y, y ∈ best :: vs → sql_leb m y = true.
Proof.
  induction vs as [|v vs IH]; intros best Hbest Hvs; simpl.
  - split; [apply list_elem_of_here|]. intros y ->%list_elem_of_singleton. apply sql_leb_refl.
  - inversion Hvs as [|? ? Hv Hvs']; subst. rewrite Hv, Hbest.
    destruct (sql_leb best v) eqn:Hle.
    + destruct (IH best Hbest Hvs') as [Hin Hlow]. split; [rewrite !elem_of_cons in *; tauto|].
      intros y [->|[->|Hy]%elem_of_cons]%elem_of_cons.
      * apply Hlow; rewrite !elem_of_cons; tauto.
      * apply (sql_leb_trans _ best); [|easy]. apply Hlow; rewrite !elem_of_cons; tauto.
      * apply Hlow; rewrite !elem_of_cons; tauto.
    + destruct (IH v Hv Hvs') as [Hin Hlow]. split; [rewrite !elem_of_cons in *; tauto|].
      assert (Hvb : sql_leb v best = true).
      { destruct (sql_leb_total v best) as [?|Hc]; [easy|congruence]. }
      intros y [->|[->|Hy]%elem_of_cons]%elem_of_cons.
      * apply (sql_leb_trans _ v); [|easy]. apply Hlow; rewrite !elem_of_cons; tauto.
      * apply Hlow; rewrite !elem_of_cons; tauto.
      * apply Hlow; rewrite !elem_of_cons; tauto.
Qed.

Lemma agg_max_from (vs : list sqlval) :
  ∀ best : sqlval,
    is_null best = false →
    Forall (λ v, is_null v = false) vs →
    let m := foldl (λ best v,
                      if is_null v then best
                      else if is_null best then v
                      else if sql_leb v best then best else v) best vs in
    m ∈ best :: vs ∧ ∀ y, y ∈ best :: vs → sql_leb y m = true.
Proof.
  induction vs as [|v vs IH]; intros best Hbest Hvs; simpl.
  - split; [apply list_elem_of_here|]. intros y ->%list_elem_of_singleton. apply sql_leb_refl.
  - inversion Hvs as [|? ? Hv Hvs']; subst. rewrite Hv, Hbest.
    destruct (sql_leb v best) eqn:Hle.
    + destruct (IH best Hbest Hvs') as [Hin Hup]. split; [rewrite !elem_of_cons in *; tauto|].
      intros y [->|[->|Hy]%elem_of_cons]%elem_of_cons.
      * apply Hup; rewrite !elem_of_cons; tauto.
      * apply (sql_leb_trans _ best); [easy|]. apply Hup; rewrite !elem_of_cons; tauto.
      * apply Hup; rewrite !elem_of_cons; tauto.
    + destruct (IH v Hv Hvs') as [Hin Hup]. split; [rewrite !elem_of_cons in *; tauto|].
      assert (Hbv : sql_leb best v = true).
      { destruct (sql_leb_total best v) as [?|Hc]; [easy|congruence]. }
      intros y [->|[->|Hy]%elem_of_cons]%elem_of_cons.
      * apply (sql_leb_trans _ v); [easy|]. apply Hup; rewrite !elem_of_cons; tauto.
      * apply Hup; rewrite !elem_of_cons; tauto.
      * apply Hup; rewrite !elem_of_cons; tauto.
Qed.

(** [MIN] and [MAX] over values none of which is NULL. *)
Lemma agg_min_max_spec (vs : list sqlval) :
  Forall (λ v, is_null v = false) vs →
  (vs = [] → agg_min vs = SNull ∧ agg_max vs = SNull)
  ∧ (vs ≠ [] →
     agg_min vs ∈ vs ∧ agg_max vs ∈ vs
     ∧ ∀ y, y ∈ vs → sql_leb (agg_min vs) y = true ∧ sql_leb y (agg_max vs) = true).
Proof.
  intros Hvs. split; [by intros ->|]. intros Hne.
  destruct vs as [|v vs]; [easy|]. inversion Hvs as [|? ? Hv Hvs']; subst.
  unfold agg_min, agg_max. simpl. rewrite Hv.
  destruct (agg_min_from vs v Hv Hvs') as [Hin Hlow].
  destruct (agg_max_from vs v Hv Hvs') as [Hin' Hup].
  split_and!; [easy|easy|]. intros y Hy. split; [by apply Hlow|by apply Hup].
Qed.

Lemma non_null_years_spec (t : table) (y : sqlval) :
  y ∈ non_null_years t
  ↔ is_null y = false
    ∧ ∃ row, row ∈ t_rows t ∧ field (t_columns t) "disc_year" row = y.
Proof.
  unfold non_null_years. rewrite list_elem_of_In, filter_In, <- list_elem_of_In.
  rewrite list_elem_of_fmap, negb_true_iff. split.
  - intros [(row & -> & Hrow) Hy]. eauto.
  - intros [Hy (row & Hrow & <-)]. eauto.
Qed.

Lemma non_null_years_Forall (t : table) :
  Forall (λ v, is_null v = false) (non_null_years t).
Proof.
  apply Forall_forall. intros y Hy. by apply non_null_years_spec in Hy as [? _].
Qed.

(** C7: the two years a completed run prints are taken over the rows
    whose year of discovery is not NULL and over no other: both belong to
    those years, the first lies below every one of them and the second
    above, as integers when they are integers; with no such row both are
    NULL. *)
Theorem loader_year_report `{Engine} (clock : nat → string)
    (planets : list json) (file : database) (st : state) :
  migrate_json_to_sqlite clock planets file = (st, None) →
  ∃ (t : table) (lines : list line) (lo hi : sqlval),
    disk (connection st) = Some t
    ∧ out st
      = lines ++ [ Complete; TotalInDatabase (length (t_rows t));
                   Counters (inserted st) (skipped st); TopMethods;
                   DiscoveryYears lo hi; Saved ]
    ∧ (∀ y, y ∈ non_null_years t
            ↔ is_null y = false
              ∧ ∃ row, row ∈ t_rows t
                       ∧ field (t_columns t) "disc_year" row = y)
    ∧ (non_null_years t = [] → lo = SNull ∧ hi = SNull)
    ∧ (non_null_years t ≠ [] →
       lo ∈ non_null_years t ∧ hi ∈ non_null_years t
       ∧ ∀ y, y ∈ non_null_years t →
              sql_leb lo y = true ∧ sql_leb y hi = true)
    ∧ (∀ a b, lo = SInt a → SInt b ∈ non_null_years t → a ≤ b)
    ∧ (∀ a b, hi = SInt a → SInt b ∈ non_null_years t → b ≤ a).
Proof.
  intros Hrun.
  destruct (migrate_report clock _ _ _ Hrun) as (t & lines & Hw & Hout).
  destruct (migrate_ends clock _ _ _ _ Hrun) as (_ & _ & Hdw).
  destruct (agg_min_max_spec (non_null_years t) (non_null_years_Forall t))
    as [Hnone Hsome].
  exists t, lines, (agg_min (non_null_years t)), (agg_max (non_null_years t)).
  split_and!; try easy.
  - by rewrite (Hdw eq_refl).
  - apply non_null_years_spec.
  - intros a b Ha Hb. apply sql_leb_int. rewrite <- Ha.
    apply Hsome; [|easy]. intros Hnil. rewrite Hnil in Hb. by apply elem_of_nil in Hb.
  - intros a b Ha Hb. apply sql_leb_int. rewrite <- Ha.
    apply Hsome; [|easy]. intros Hnil. rewrite Hnil in Hb. by apply elem_of_nil in Hb.
Qed.

(** C7 on three planets, one of them with no year: 1995 and 2011. *)
Lemma loader_year_report_witness :
  ∃ (t : table) (lines : list line),
    disk (connection (migrate_json_to_sqlite sample_clock sample_years None).1)
    = Some t
    ∧ length (t_rows t) = 3%nat
    ∧ non_null_years t = [SInt 2011; SInt 1995]
    ∧ out (migrate_json_to_sqlite sample_clock sample_years None).1
      = lines ++ [ Complete; TotalInDatabase 3; Counters 3 0; TopMethods;
                   DiscoveryYears (SInt 1995) (SInt 2011); Saved ].
Proof.
  destruct (loader_year_report sample_clock sample_years None
              (migrate_json_to_sqlite sample_clock sample_years None).1)
    as (t & lines & lo & hi & Ht & Hout & _); [vm_compute; reflexivity|].
  vm_compute in Ht. injection Ht as <-.
  eexists _, (take 4 (out (migrate_json_to_sqlite sample_clock sample_years None).1)).
  split; [vm_compute; reflexivity|]. vm_compute. by split_and!.
Defined.

(** ** The schema *)

(** A column the statement does not name is bound to nothing. *)
Lemma bound_for_absent (name : string) (cols : list string) :
  forallb (λ c, negb (String.eqb c name)) cols = true →
  ∀ vals : list sqlval, bound_for name cols vals = None.
Proof.
  induction cols as [|c cols IH]; intros Hc vals; simpl in *; [easy|].
  apply andb_true_iff in Hc as [Hc Hcols]. apply negb_true_iff in Hc.
  destruct vals as [|v vals]; [easy|]. rewrite Hc. by apply IH.
Qed.

(** C8, as stated, fails: the table [create_database] leaves has not 19
    columns. *)
Lemma planets_table_not_19_columns :
  ∃ t : table,
    work (create_database None).1 = Some t
    ∧ length (t_columns t) ≠ 19%nat.
Proof. exists empty_planets. split; [reflexivity|]. simpl. lia. Qed.

(** C8, amended: whatever the file held, [create_database] leaves a table
    of 20 columns, on disk as in the connection: the rowid [id], an
    integer primary key handed out in increasing order, the 18 columns
    the INSERT names, and [created_at], which defaults to the time of the
    insert; and seven indexes, on the name, the year and the method of
    discovery, the radius and the mass of the planet, the temperature of
    the host and the distance of the system. *)
Theorem planets_table_schema `{Engine} (file : database) :
  ∃ t : table,
    create_database file = (Conn (Some t) (Some t), None)
    ∧ length (t_columns t) = 20%nat
    ∧ c_name <$> t_columns t = "id" :: insert_columns ++ ["created_at"]
    ∧ length insert_columns = 18%nat
    ∧ t_columns t !! 0%nat = Some (Column "id" TyInteger [PrimaryKeyAutoincrement])
    ∧ t_columns t !! 19%nat
      = Some (Column "created_at" TyTimestamp [DefaultCurrentTimestamp])
    ∧ i_column <$> t_indexes t
      = [ "pl_name"; "disc_year"; "discoverymethod"; "pl_rade"; "pl_bmasse";
          "st_teff"; "sy_dist" ]
    ∧ length (t_indexes t) = 7%nat
    ∧ t_rows t = []
    ∧ ∀ (now : string) (idx : list index) (rows : list (list sqlval)) (seq : Z)
        (vals : list sqlval),
        let row := new_row now (Table (t_columns t) idx rows seq)
                     insert_columns vals in
        length row = 20%nat
        ∧ field (t_columns t) "id" row = SInt (seq + 1)
        ∧ field (t_columns t) "created_at" row = coerce NUMERIC (SText now).
Proof.
  exists empty_planets. rewrite create_database_fresh.
  split_and!; try reflexivity.
  intros now idx rows seq vals row. subst row. split_and!.
  - by rewrite new_row_length.
  - unfold new_row. cbn [t_columns empty_planets planets_columns fmap list_fmap].
    rewrite (bound_for_absent "id" insert_columns eq_refl).
    cbn. apply coerce_integer.
  - unfold new_row. cbn [t_columns empty_planets planets_columns fmap list_fmap].
    by rewrite (bound_for_absent "created_at" insert_columns eq_refl).
Qed.

(** ** The reports of skips *)

Section Alerts.
Context `{Engine} (clock : nat → string).

(** X16: on every run the warnings and errors printed are those of the
    first five failures of the input, in order, as far as the run got:
    there are at most five of them, and every failure handled is
    counted. *)
Lemma loader_alerts_bounded (planets : list json) (file : database)
    (st : state) (r : option exn) :
  migrate_json_to_sqlite clock planets file = (st, r) →
  alerts (out st) `prefix_of` alert <$> take 5 (failures [] planets)
  ∧ (length (alerts (out st)) ≤ 5)%nat
  ∧ (r = None →
     alerts (out st) = alert <$> take 5 (failures [] planets)
     ∧ skipped st = length (failures [] planets)).
Proof.
  intros Hrun. destruct (migrate_ends clock _ _ _ _ Hrun) as (Hends & _).
  assert (Hpre : alerts (out st) `prefix_of` alert <$> take 5 (failures [] planets)
                 ∧ (r = None →
                    alerts (out st) = alert <$> take 5 (failures [] planets)
                    ∧ skipped st = length (failures [] planets))).
  { destruct Hends as [(-> & _ & Ht)|(l1 & p & l2 & st1 & -> & _ & _ & Ht & -> & ->)];
      simpl in Ht; destruct Ht as (_ & _ & Hs & Ha).
    - rewrite Ha. by split.
    - simpl. rewrite Ha, failures_app, take_app, fmap_app. split; [|easy].
      by eexists. }
  destruct Hpre as [Hpre Heq]. split_and!; [easy| |easy].
  apply prefix_length in Hpre. rewrite length_fmap, length_take in Hpre. lia.
Qed.

(** A record that is no dict ends the run when it is at most the fifth to
    fail: the skip is counted, nothing is printed for it, and the records
    after it are not handled. *)
Lemma loader_crash (seen : list json) (p : json) (rest : list json)
    (file : database) (st1 : state) :
  migrate_json_to_sqlite clock seen file = (st1, None) →
  is_object p = false →
  (skipped st1 < 5)%nat →
  ∃ st : state,
    migrate_json_to_sqlite clock (seen ++ p :: rest) file
    = (st, Some AttributeError)
    ∧ inserted st = inserted st1
    ∧ skipped st = S (skipped st1)
    ∧ alerts (out st) = alerts (out st1).
Proof.
  intros Hrun1 Hobj Hfew.
  destruct (migrate_ends clock _ _ _ _ Hrun1) as (Hends1 & _).
  destruct Hends1 as [(_ & Hfree1 & Ht1)|(? & ? & ? & ? & _ & _ & _ & _ & _ & ?)];
    [|easy].
  simpl in Hfree1, Ht1.
  assert (Hp : crashes seen p = true).
  { unfold crashes. rewrite Hobj. destruct Ht1 as (_ & _ & <- & _).
    by apply Nat.ltb_lt. }
  destruct (migrate_json_to_sqlite clock (seen ++ p :: rest) file)
    as [st r] eqn:Hrun.
  destruct (migrate_ends clock _ _ _ _ Hrun) as (Hends & _).
  destruct Hends as [(_ & Hfree & _)
                    |(l1 & q & l2 & st2 & Heq & Hfree & Hq & Ht2 & -> & ->)].
  - rewrite crash_free_app in Hfree. cbn [crash_free] in Hfree.
    change ([] ++ seen) with seen in Hfree. rewrite Hp in Hfree.
    simpl in Hfree. by rewrite andb_false_r in Hfree.
  - assert (seen = l1) as <-.
    { by apply (first_crash_unique seen [] p rest l1 q l2). }
    exists (bump st2). split; [easy|]. simpl in Ht2 |- *.
    destruct Ht1 as (_ & Hi1 & Hs1 & Ha1), Ht2 as (_ & Hi2 & Hs2 & Ha2).
    split_and!; congruence.
Qed.

End Alerts.

(** C6, where the code departs from it: an entry of the array that is no
    dict is counted as a skip, and then the report of that skip raises in
    its turn, so that the run ends there.  The row inserted before it in
    the batch is not committed and the record after it is not handled. *)
Theorem loader_aborts_on_non_dict :
  (migrate_json_to_sqlite sample_clock sample_broken None).2
  = Some AttributeError
  ∧ inserted (migrate_json_to_sqlite sample_clock sample_broken None).1 = 1%nat
  ∧ skipped (migrate_json_to_sqlite sample_clock sample_broken None).1 = 1%nat
  ∧ alerts (out (migrate_json_to_sqlite sample_clock sample_broken None).1) = []
  ∧ length (rows_of (work (connection
        (migrate_json_to_sqlite sample_clock sample_broken None).1))) = 1%nat
  ∧ rows_of (disk (connection
        (migrate_json_to_sqlite sample_clock sample_broken None).1)) = []
  ∧ main sample_clock (Parsed sample_broken) None = (Some empty_planets, 1).
Proof. vm_compute. by split_and!. Qed.

(** * Further properties *)

(** ** The fetcher, whatever the archive answers *)



(** The fetcher returns only for a 200 whose body parses to a sized
    value. *)
Lemma fetcher_main_ok `{Host} (w w' : world) :
  fetcher_main w = (w', Ok ()) →
  ∃ (resp : response) (data : json) (n : nat),
    server fetch_request = Ok resp
    ∧ status_code resp = 200
    ∧ json_loads (text resp) = Some data
    ∧ py_len data = Ok n.
Proof.
  unfold fetcher_main, fetch_all_exoplanets.
  destruct (server fetch_request) as [resp|e] eqn:Hresp; [|easy].
  destruct (Z.eqb_spec (status_code resp) 200) as [Hstatus|Hstatus]; [|easy].
  simpl. destruct (json_loads (text resp)) as [data|] eqn:Hdata; [|easy].
  destruct (py_len data) as [n|e] eqn:Hlen; [|easy].
  intros _. by exists resp, data, n.
Qed.



(** X3: a second run of the fetcher against the same answer leaves the
    files as the first run did. *)
Theorem fetcher_rerun `{Host} (w w1 : world) :
  fetcher_main w = (w1, Ok ()) →
  ∃ w2 : world,
    fetcher_main w1 = (w2, Ok ())
    ∧ files w2 = files w1
    ∧ sent w2 = sent w ++ [fetch_request; fetch_request].
Proof.
  intros Hrun.
  destruct (fetcher_main_ok w w1 Hrun)
    as (resp & data & n & Hresp & Hstatus & Hdata & Hlen).
  assert (Hmain : ∀ v, fetcher_main v
            = (say DataSaved
                 (write_file "Exoplanate.json" (json_dumps data)
                    (say (TotalFetched n)
                       (say (Got n) (send fetch_request (say Requesting v))))),
               Ok ())).
  { intros v. unfold fetcher_main, fetch_all_exoplanets.
    rewrite Hresp, Hstatus, Hdata. simpl. by rewrite !Hlen. }
  rewrite Hmain in Hrun. injection Hrun as <-.
  eexists. split; [apply Hmain|]. simpl.
  by rewrite insert_insert_eq, <- app_assoc.
Qed.

(** X3 against the archive that answers with one planet. *)
Lemma fetcher_rerun_witness :
  ∃ w2 : world,
    @fetcher_main sample_archive (@fetcher_main sample_archive empty_world).1
    = (w2, Ok ())
    ∧ files w2 = files (@fetcher_main sample_archive empty_world).1
    ∧ sent w2 = [fetch_request; fetch_request].
Proof.
  apply (@fetcher_rerun sample_archive empty_world). reflexivity.
Defined.

(** ** The pagination helper, further *)

(** X4: for a positive size the helper yields as many chunks as it takes
    to hold the items, the length divided by the size and rounded up. *)
Theorem paginate_count {A : Type} (data : list A) (batch_size : Z) :
  0 < batch_size →
  ∃ chunks : list (list A),
    paginate data batch_size = Some chunks
    ∧ Z.of_nat (length chunks)
      = (Z.of_nat (length data) + batch_size - 1) / batch_size.
Proof.
  intros Hb.
  destruct (paginate_cut data (Z.to_nat batch_size)) as (k & Heq & Hcover & Hstarts);
    [lia|].
  rewrite Z2Nat.id in Heq by lia. eexists. split; [exact Heq|].
  rewrite length_fmap, length_seq.
  set (b := Z.to_nat batch_size) in *.
  assert (Hlow : (k = 0 ∨ (k - 1) * b < length data)%nat).
  { destruct k as [|k]; [by left|right]. specialize (Hstarts k). simpl. lia. }
  apply (Z.div_unique_pos _ _ _
           (Z.of_nat (length data) + batch_size - 1 - batch_size * Z.of_nat k));
    nia.
Qed.

(** X4 on seven items in chunks of three: three chunks. *)
Lemma paginate_count_witness :
  ∃ chunks : list (list nat),
    paginate [1; 2; 3; 4; 5; 6; 7]%nat 3 = Some chunks
    ∧ Z.of_nat (length chunks) = 3.
Proof. apply (paginate_count [1; 2; 3; 4; 5; 6; 7]%nat 3). lia. Defined.

(** X5: for a positive size every item keeps its place: item [j] of the
    input is item [j mod size] of chunk [j / size], and the chunks hold
    nothing else. *)
Theorem paginate_lookup {A : Type} (data : list A) (b : nat) :
  (0 < b)%nat →
  ∃ chunks : list (list A),
    paginate data (Z.of_nat b) = Some chunks
    ∧ ∀ j : nat,
        chunks !! (j / b)%nat ≫= (λ c, c !! (j mod b)%nat) = data !! j.
Proof.
  intros Hb. destruct (paginate_cut data b Hb) as (k & Heq & Hcover & Hstarts).
  eexists. split; [exact Heq|]. intros j.
  pose proof (Nat.div_mod_eq j b) as Hj.
  pose proof (Nat.mod_upper_bound j b) as Hmod.
  rewrite list_lookup_fmap.
  destruct (seq 0 k !! (j / b)%nat) as [i|] eqn:Hi; simpl.
  - apply lookup_seq in Hi as [-> _]. simpl. unfold chunk_at.
    rewrite lookup_take_lt by lia. rewrite lookup_drop. f_equal. lia.
  - apply lookup_ge_None in Hi. rewrite length_seq in Hi.
    symmetry. apply lookup_ge_None. nia.
Qed.

(** X5 on seven items in chunks of three: item 4 is item 1 of chunk 1. *)
Lemma paginate_lookup_witness :
  ∃ chunks : list (list nat),
    paginate [10; 11; 12; 13; 14; 15; 16]%nat 3 = Some chunks
    ∧ chunks !! 1%nat ≫= (λ c, c !! 1%nat) = Some 14%nat.
Proof.
  destruct (paginate_lookup [10; 11; 12; 13; 14; 15; 16]%nat 3)
    as (chunks & Heq & Hlook); [lia|].
  exists chunks. split; [exact Heq|]. exact (Hlook 4%nat).
Defined.

(** X6: a size of zero makes the helper raise, as [range] does; a
    negative size makes it yield nothing at all, whatever the items; and
    so does an empty input for any other size. *)
Theorem paginate_degenerate {A : Type} (data : list A) (batch_size : Z) :
  paginate data 0 = None
  ∧ (batch_size < 0 → paginate data batch_size = Some [])
  ∧ (batch_size ≠ 0 → paginate (@nil A) batch_size = Some []).
Proof.
  unfold paginate, Py.range, Py.range_len. split_and!.
  - reflexivity.
  - intros Hb.
    destruct (Z.eqb_spec batch_size 0) as [?|_]; [lia|].
    destruct (Z.ltb_spec 0 batch_size) as [?|_]; [lia|].
    destruct (Z.ltb_spec (Z.of_nat (length data)) 0) as [?|_]; [lia|]. reflexivity.
  - intros Hb.
    destruct (Z.eqb_spec batch_size 0) as [?|_]; [lia|].
    by destruct (0 <? batch_size).
Qed.

(** X6 on three items and the size -2: no chunk. *)
Lemma paginate_degenerate_witness :
  paginate [1; 2; 3]%nat (-2) = Some [].
Proof. apply (paginate_degenerate [1; 2; 3]%nat (-2)). lia. Defined.

(** ** The loader, further *)

Section Outcome.
Context `{Engine}.


End Outcome.


Section Rows.
Context `{Engine} (clock : nat → string).

(** The row of a record that goes in carries the rowid after the largest
    handed out. *)
Lemma stored_row_id (k : nat) (seq : Z) (p : json) (n : sqlval) :
  stored_name p = Ok n →
  field planets_columns "id" (stored_row clock k seq p) = SInt (seq + 1).
Proof.
  unfold stored_name, stored_row.
  destruct (planet_args p ≫= bind_parameters 0) as [vals|e] eqn:Hvals.
  2: { destruct (planet_args p); simpl in *; [by rewrite Hvals|easy]. }
  intros _. unfold new_row. cbn [t_columns planets_columns fmap list_fmap].
  rewrite (bound_for_absent "id" insert_columns eq_refl).
  cbn. apply coerce_integer.
Qed.

Lemma stored_rows_ids (l : list json) :
  ∀ (earlier : list json) (n i : nat) (row : list sqlval),
    stored_rows clock earlier l n !! i = Some row →
    field planets_columns "id" row = SInt (Z.of_nat (n + i) + 1).
Proof.
  induction l as [|p l IH]; intros earlier n i row; simpl; [easy|].
  destruct (failure earlier p) eqn:Hp; [apply IH|].
  destruct i as [|i]; simpl.
  - intros [= <-]. destruct (failure_none _ _ Hp) as (m & Hm & _).
    rewrite (stored_row_id _ _ _ m Hm). do 2 f_equal. lia.
  - intros Hrow. rewrite (IH _ _ _ _ Hrow). do 2 f_equal. lia.
Qed.

End Rows.

(** X8: whatever the run, the rows of the table carry the ids 1, 2, 3 and
    so on in the order they went in: a record that is skipped uses up no
    id. *)
Theorem loader_row_ids `{Engine} (clock : nat → string)
    (planets : list json) (file : database) (st : state) (r : option exn) :
  migrate_json_to_sqlite clock planets file = (st, r) →
  ∀ (i : nat) (row : list sqlval),
    (rows_of (work (connection st)) !! i = Some row →
     field planets_columns "id" row = SInt (Z.of_nat i + 1))
    ∧ (rows_of (disk (connection st)) !! i = Some row →
       field planets_columns "id" row = SInt (Z.of_nat i + 1)).
Proof.
  intros Hrun i row.
  destruct (migrate_rows clock _ _ _ _ Hrun) as (handled & _ & Hrows & _).
  destruct (migrate_ends clock _ _ _ _ Hrun) as (_ & (rows & Hpre & Hdisk) & _).
  assert (Hwork : rows_of (work (connection st)) !! i = Some row →
                  field planets_columns "id" row = SInt (Z.of_nat i + 1)).
  { rewrite Hrows. intros Hrow.
    by rewrite (stored_rows_ids clock _ _ _ _ _ Hrow). }
  split; [exact Hwork|].
  rewrite Hdisk. simpl. intros Hrow. apply Hwork.
  by apply (prefix_lookup_Some rows).
Qed.

(** X8 on the sample: the row of 51 Peg b, second to go in, has id 2. *)
Lemma loader_row_ids_witness :
  ∃ row : list sqlval,
    rows_of (disk (connection
       (migrate_json_to_sqlite sample_clock sample_planets None).1)) !! 1%nat
    = Some row
    ∧ row_name row = SText "51 Peg b"
    ∧ field planets_columns "id" row = SInt 2.
Proof.
  eexists. split; [vm_compute; reflexivity|]. split; [reflexivity|].
  refine (proj2 (loader_row_ids sample_clock sample_planets None
                   (migrate_json_to_sqlite sample_clock sample_planets None).1
                   None _ 1%nat _) _);
    vm_compute; reflexivity.
Defined.

(** X9: after a completed run a name can be looked up in the table
    exactly when some record of the input carries it, and then one row
    only answers to it. *)
Theorem loader_lookup_by_name `{Engine} (clock : nat → string)
    (planets : list json) (file : database) (st : state) (n : sqlval) :
  migrate_json_to_sqlite clock planets file = (st, None) →
  ((∃ (i : nat) (row : list sqlval),
       rows_of (disk (connection st)) !! i = Some row
       ∧ sql_eqb (row_name row) n = true)
   ↔ (∃ (k : nat) (p : json) (m : sqlval),
         planets !! k = Some p ∧ stored_name p = Ok m ∧ sql_eqb m n = true))
  ∧ ∀ (i j : nat) (row row' : list sqlval),
      rows_of (disk (connection st)) !! i = Some row →
      rows_of (disk (connection st)) !! j = Some row' →
      sql_eqb (row_name row) n = true → sql_eqb (row_name row') n = true →
      i = j.
Proof.
  intros Hrun.
  destruct (migrate_ends clock _ _ _ _ Hrun) as (Hends & _ & Hdw).
  destruct Hends as [(_ & _ & Ht)|(? & ? & ? & ? & _ & _ & _ & _ & _ & ?)];
    [|easy].
  simpl in Ht. rewrite (Hdw eq_refl), (tracks_rows clock _ _ Ht).
  pose proof (tracks_names clock planets st n Ht) as Hnames.
  rewrite taken_row_name in Hnames. split.
  - split.
    + intros (i & row & Hrow & Heq).
      assert (Hex : existsb (named n) planets = true).
      { rewrite <- Hnames. apply existsb_exists. exists row. split; [|easy].
        apply list_elem_of_In, list_elem_of_lookup. eauto. }
      apply existsb_exists in Hex as (p & Hin & Hp).
      apply list_elem_of_In, list_elem_of_lookup in Hin as [k Hk].
      unfold named in Hp. destruct (stored_name p) as [m|] eqn:Hm; [|easy].
      by exists k, p, m.
    + intros (k & p & m & Hk & Hm & Heq).
      assert (Hex : existsb (λ r, sql_eqb (row_name r) n)
                      (stored_rows clock [] planets 0) = true).
      { rewrite Hnames. apply existsb_exists. exists p. split.
        - apply list_elem_of_In, list_elem_of_lookup. eauto.
        - unfold named. by rewrite Hm. }
      apply existsb_exists in Hex as (row & Hin & Hrow).
      apply list_elem_of_In, list_elem_of_lookup in Hin as [i Hi].
      by exists i, row.
  - intros i j row row' Hi Hj Hrow Hrow'.
    apply (stored_rows_unique_names clock planets i j row row' Hi Hj).
    apply (sql_eqb_trans _ n); [easy|]. by rewrite sql_eqb_sym.
Qed.

(** X9 on the sample: Kepler-22 b is found, in the first row. *)
Lemma loader_lookup_by_name_witness :
  ∃ (i : nat) (row : list sqlval),
    rows_of (disk (connection
       (migrate_json_to_sqlite sample_clock sample_planets None).1)) !! i
    = Some row
    ∧ sql_eqb (row_name row) (SText "Kepler-22 b") = true.
Proof.
  apply (loader_lookup_by_name sample_clock sample_planets None
           (migrate_json_to_sqlite sample_clock sample_planets None).1
           (SText "Kepler-22 b")); [vm_compute; reflexivity|].
  exists 2%nat, (sample_planet "Kepler-22 b" 2012), (SText "Kepler-22 b").
  by split_and!.
Defined.

(** ** Which records go in *)








Section Accept.
Context `{Engine}.




End Accept.



(** ** What a row holds *)

Section Values.
Context `{Engine} (clock : nat → string).

(** The row of a dict that has a name: under each column of the INSERT
    what the dict holds under that name, bound and coerced to the column,
    and the clock in [created_at]. *)
Lemma stored_row_values (k : nat) (seq : Z) (fields : gmap string json)
    (n : sqlval) :
  stored_name (JObj fields) = Ok n →
  (∀ (j : nat) (f : string),
      insert_columns !! j = Some f →
      ∃ (c : column) (v : sqlval),
        planets_columns !! S j = Some c
        ∧ c_name c = f
        ∧ bind_param j (default (if String.eqb f "default_flag" then JInt 1
                                 else JNull) (fields !! f)) = Ok v
        ∧ field planets_columns f (stored_row clock k seq (JObj fields))
          = coerce (affinity_of (c_type c)) v)
  ∧ field planets_columns "created_at" (stored_row clock k seq (JObj fields))
    = coerce NUMERIC (SText (clock k)).
Proof.
  unfold stored_name, stored_row. rewrite planet_args_fields.
  cbn [mbind result_bind bind_parameters].
  repeat match goal with
         | |- context [bind_param ?i ?a] =>
             let v := fresh "v" in
             let E := fresh "E" in
             destruct (bind_param i a) as [v|] eqn:E; cbn [mbind result_bind];
               [|intros Hx; discriminate Hx]
         end.
  intros _. split; [|reflexivity].
  intros j f Hj.
  do 18 (destruct j as [|j];
         [injection Hj as <-; eexists _, _;
          split; [reflexivity|split; [reflexivity|split; [eassumption|reflexivity]]]|]).
  discriminate Hj.
Qed.

(** Every row an input leaves is the row of one of its records. *)
Lemma stored_rows_lookup (l : list json) :
  ∀ (earlier : list json) (n i : nat) (row : list sqlval),
    stored_rows clock earlier l n !! i = Some row →
    ∃ (k : nat) (p : json) (m : sqlval),
      l !! k = Some p ∧ stored_name p = Ok m
      ∧ row = stored_row clock (length earlier + k) (Z.of_nat (n + i)) p.
Proof.
  induction l as [|p l IH]; intros earlier n i row; simpl; [easy|].
  destruct (failure earlier p) eqn:Hp.
  - intros (k & q & m & Hk & Hm & ->)%IH. exists (S k), q, m.
    rewrite length_app in *. simpl. split_and!; try done. f_equal; lia.
  - destruct i as [|i]; simpl.
    + intros [= <-]. destruct (failure_none _ _ Hp) as (m & Hm & _).
      exists 0%nat, p, m. split_and!; try done. f_equal; lia.
    + intros (k & q & m & Hk & Hm & ->)%IH. exists (S k), q, m.
      rewrite length_app in *. simpl. split_and!; try done. f_equal; lia.
Qed.

End Values.

(** X11: whatever the run, a row of the table comes from one record of
    the input, a dict, and holds under each column of the INSERT what
    that dict holds under the column's name ([None] for a name it lacks,
    1 for a flag it lacks) as the sqlite3 module binds it and the column
    stores it; nothing is computed from the record.  [created_at] is the
    time at which that record was handled. *)
Theorem loader_row_values `{Engine} (clock : nat → string)
    (planets : list json) (file : database) (st : state) (r : option exn)
    (i : nat) (row : list sqlval) :
  migrate_json_to_sqlite clock planets file = (st, r) →
  rows_of (work (connection st)) !! i = Some row
  ∨ rows_of (disk (connection st)) !! i = Some row →
  ∃ (k : nat) (fields : gmap string json),
    planets !! k = Some (JObj fields)
    ∧ (∀ (j : nat) (f : string),
          insert_columns !! j = Some f →
          ∃ (c : column) (v : sqlval),
            planets_columns !! S j = Some c
            ∧ c_name c = f
            ∧ bind_param j (default (if String.eqb f "default_flag" then JInt 1
                                     else JNull) (fields !! f)) = Ok v
            ∧ field planets_columns f row = coerce (affinity_of (c_type c)) v)
    ∧ field planets_columns "created_at" row = coerce NUMERIC (SText (clock k)).
Proof.
  intros Hrun Hrow.
  destruct (migrate_rows clock _ _ _ _ Hrun) as (handled & _ & Hrows & Hcover).
  destruct (migrate_ends clock _ _ _ _ Hrun) as (_ & (rows & Hpre & Hdisk) & _).
  assert (Hwork : rows_of (work (connection st)) !! i = Some row).
  { destruct Hrow as [Hrow|Hrow]; [done|].
    rewrite Hdisk in Hrow. simpl in Hrow. by apply (prefix_lookup_Some rows). }
  rewrite Hrows in Hwork.
  apply stored_rows_lookup in Hwork as (k & p & m & Hk & Hm & ->).
  destruct (stored_name_ok clock 0 0 p m Hm) as (Hobj & _).
  destruct p as [| | | | | |fields]; try discriminate Hobj.
  exists k, fields. split.
  - destruct Hcover as [[_ <-]|(q & l2 & -> & _)]; [done|].
    by apply lookup_app_l_Some.
  - apply (stored_row_values clock _ _ _ m Hm).
Qed.

(** X11 on the sample: the second row comes from a record of the sample
    and holds what that record holds. *)
Lemma loader_row_values_witness :
  let st := (migrate_json_to_sqlite sample_clock sample_planets None).1 in
  let row := default [] (rows_of (disk (connection st)) !! 1%nat) in
  ∃ (k : nat) (fields : gmap string json),
    sample_planets !! k = Some (JObj fields)
    ∧ (∀ (j : nat) (f : string),
          insert_columns !! j = Some f →
          ∃ (c : column) (v : sqlval),
            planets_columns !! S j = Some c
            ∧ c_name c = f
            ∧ bind_param j (default (if String.eqb f "default_flag" then JInt 1
                                     else JNull) (fields !! f)) = Ok v
            ∧ field planets_columns f row = coerce (affinity_of (c_type c)) v)
    ∧ field planets_columns "created_at" row
      = coerce NUMERIC (SText (sample_clock k)).
Proof.
  apply (loader_row_values sample_clock sample_planets None
           (migrate_json_to_sqlite sample_clock sample_planets None).1 None
           1%nat);
    [vm_compute; reflexivity|right; vm_compute; reflexivity].
Defined.

(** ** What an interrupted run leaves *)

Lemma concat_chunks_take {A : Type} (b : nat) (l : list A) (m : nat) :
  concat (chunk_at b l <$> seq 0 m) = take (m * b) l.
Proof.
  induction m as [|m IH]; [done|].
  rewrite seq_S, fmap_app, concat_app, IH. simpl. rewrite app_nil_r.
  unfold chunk_at. rewrite take_take_drop. f_equal. lia.
Qed.

Section Durable.
Context `{Engine} (clock : nat → string).
Implicit Types (st : state) (done : list json).


End Durable.



(** ** The progress lines *)

Section Progress.
Context `{Engine} (clock : nat → string).
Implicit Types (st : state) (done : list json).

(** A round of the inner loop prints no progress line. *)
Lemma process_planet_progress st p st' r :
  process_planet clock st p = (st', r) →
  List.filter is_progress (out st') = List.filter is_progress (out st).
Proof.
  unfold process_planet.
  destruct (try_insert clock st p) as [c|e]; [by intros [= <- _]|].
  assert (Hskip : ∀ report,
            (∀ n, is_progress (report n e) = false) →
            skip report e st p = (st', r) →
            List.filter is_progress (out st') = List.filter is_progress (out st)).
  { intros report Hreport. rewrite skip_spec.
    destruct (S (skipped st) <=? 5)%nat; [|by intros [= <- _]].
    destruct (is_object p); [|by intros [= <- _]].
    intros [= <- _]. simpl. rewrite List.filter_app. simpl.
    by rewrite Hreport, app_nil_r. }
  destruct (is_integrity e); by apply Hskip.
Qed.

Lemma process_batch_progress batch :
  ∀ st st' r,
    process_batch clock st batch = (st', r) →
    List.filter is_progress (out st') = List.filter is_progress (out st).
Proof.
  induction batch as [|p batch IH]; intros st st' r; simpl.
  - by intros [= <- _].
  - destruct (process_planet clock st p) as [st1 [e|]] eqn:Hstep.
    + intros [= <- _]. by eapply process_planet_progress.
    + intros Hrest. rewrite (IH _ _ _ Hrest). by eapply process_planet_progress.
Qed.

(** The outer loop prints one progress line after each batch, with the
    counters as they stand after the records handled so far. *)
Lemma batches_progress planets (starts : list Z) :
  ∀ done st st',
    tracks clock done st →
    process_batches clock planets starts st = (st', None) →
    List.filter is_progress (out st')
    = List.filter is_progress (out st)
      ++ ((λ m : nat,
             let seen :=
               done ++ concat (take (S m)
                                 ((λ i, Py.slice planets i (i + batch_size))
                                    <$> starts)) in
             Progress (length seen - length (failures [] seen))
                      (length planets) (length (failures [] seen)))
            <$> seq 0 (length starts)).
Proof.
  induction starts as [|i starts IH]; intros done st st' Ht Hrun; simpl in Hrun.
  - injection Hrun as <-. simpl. by rewrite app_nil_r.
  - set (batch := Py.slice planets i (i + batch_size)) in *.
    destruct (process_batch clock st batch) as [st1 [e1|]] eqn:Hbatch;
      [discriminate Hrun|].
    destruct (tracks_batch clock _ _ _ _ _ Ht Hbatch)
      as [_ [(_ & _ & Ht1)|(? & ? & ? & ? & _ & _ & _ & _ & _ & ?)]]; [|done].
    set (st2 := print _ _) in Hrun.
    destruct (tracks_commit clock _ _ (length planets) Ht1) as (Ht2 & _ & _).
    rewrite (IH _ _ _ Ht2 Hrun). subst st2. simpl.
    rewrite List.filter_app. simpl.
    rewrite (process_batch_progress _ _ _ _ Hbatch), <- app_assoc. f_equal.
    rewrite <- fmap_S_seq, <- list_fmap_compose. simpl. fold batch.
    rewrite app_nil_r. f_equal.
    + destruct Ht1 as (_ & -> & -> & _).
      pose proof (stored_rows_failures clock [] (done ++ batch) 0).
      f_equal. lia.
    + apply list_fmap_ext. intros _ m _. simpl. by rewrite <- !app_assoc.
Qed.

End Progress.

(** X13: a run that completes prints one progress line per batch of 100,
    the length of the input divided by 100 and rounded up; the line after
    batch [m] counts as skipped the records that failed among the first
    [100 * (m + 1)] of the input, the rest of these as inserted, and the
    length of the input as the total. *)
Theorem loader_progress_lines `{Engine} (clock : nat → string)
    (planets : list json) (file : database) (st : state) :
  migrate_json_to_sqlite clock planets file = (st, None) →
  List.filter is_progress (out st)
  = (λ m : nat,
       let seen := take (100 * S m) planets in
       Progress (length seen - length (failures [] seen))
                (length planets) (length (failures [] seen)))
    <$> seq 0 ((length planets + 99) / 100)%nat.
Proof.
  intros Hrun.
  unfold migrate_json_to_sqlite in Hrun. rewrite create_database_fresh in Hrun.
  destruct (paginate_cut planets 100) as (k & Hp & Hcover & Hstarts); [lia|].
  unfold paginate in Hp. change (Z.of_nat 100) with batch_size in Hp.
  assert (Hk : ((length planets + 99) / 100)%nat = k).
  { symmetry. apply (Nat.div_unique _ _ _ (length planets + 99 - 100 * k)%nat).
    - destruct k as [|k]; [simpl in *; lia|]. specialize (Hstarts k). lia.
    - destruct k as [|k]; [lia|]. specialize (Hstarts k). lia. }
  rewrite Hk.
  destruct (Py.range 0 (Z.of_nat (length planets)) batch_size) as [starts|];
    [|discriminate Hp].
  simpl in Hp. injection Hp as Hslices.
  set (st0 := State _ 0 0 _) in Hrun.
  assert (Ht0 : tracks clock [] st0) by by apply tracks_start.
  destruct (process_batches clock planets starts st0) as [st1 [e1|]] eqn:Hloop;
    [discriminate Hrun|].
  destruct (tracks_batches clock planets starts _ _ _ _ Ht0
              (ex_intro _ [] (conj (prefix_nil _) eq_refl)) Hloop)
    as (Hends & _ & _).
  destruct Hends as [(_ & _ & Ht1)|(? & ? & ? & ? & _ & _ & _ & _ & _ & ?)];
    [|done].
  rewrite (verify_spec st1 _ (proj1 Ht1)) in Hrun. injection Hrun as <-.
  simpl. rewrite List.filter_app. simpl. rewrite app_nil_r.
  rewrite (batches_progress clock planets starts [] st0 st1 Ht0 Hloop).
  rewrite Hslices.
  assert (Hlen : length starts = k).
  { rewrite <- (length_fmap (λ i, Py.slice planets i (i + batch_size)) starts).
    by rewrite Hslices, length_fmap, length_seq. }
  rewrite Hlen. apply list_fmap_ext. intros i m Hm.
  apply lookup_seq in Hm as [Heq Hm]. cbn [Nat.add] in Heq. subst i.
  cbv beta zeta. change ([] ++ ?l) with l.
  assert (Hpre : concat (take (S m) (chunk_at 100 planets <$> seq 0 k))
                 = take (100 * S m) planets).
  { rewrite <- fmap_take, take_seq, Nat.min_l by lia.
    rewrite concat_chunks_take. f_equal. lia. }
  by rewrite Hpre.
Qed.

(** X13 on the sample: four records make one batch, and one line. *)
Lemma loader_progress_lines_witness :
  List.filter is_progress
    (out (migrate_json_to_sqlite sample_clock sample_planets None).1)
  = [ Progress 2 4 2 ].
Proof.
  etrans.
  - apply (loader_progress_lines sample_clock sample_planets None
             (migrate_json_to_sqlite sample_clock sample_planets None).1).
    vm_compute. reflexivity.
  - vm_compute. reflexivity.
Defined.

(** ** One round of the loop on a dict *)



Section Round.
Context `{Engine}.



End Round.


(** ** The file the loader finds *)



(** ** The reports of skips, on a sample *)

(** X16 on the planet met seven times: six skips, five warnings. *)
Lemma loader_alerts_bounded_witness :
  let st := (migrate_json_to_sqlite sample_clock sample_repeats None).1 in
  (alerts (out st) `prefix_of` alert <$> take 5 (failures [] sample_repeats)
   ∧ (length (alerts (out st)) ≤ 5)%nat
   ∧ (@None exn = None →
      alerts (out st) = alert <$> take 5 (failures [] sample_repeats)
      ∧ skipped st = length (failures [] sample_repeats)))
  ∧ length (alerts (out st)) = 5%nat
  ∧ skipped st = 6%nat.
Proof.
  split; [|split; vm_compute; reflexivity].
  apply (loader_alerts_bounded sample_clock sample_repeats None
           (migrate_json_to_sqlite sample_clock sample_repeats None).1 None).
  vm_compute. reflexivity.
Defined.
